(** * gufe storage layer: external storage backends and the result client

    A shallow embedding of [gufe/storage/externalresource.py] and
    [gufe/storage/resultclient.py], followed by the properties the
    specification states about them.

    Conventions of the embedding:
    - Python [bytes] are [list byte]; [str] is [string].
    - A method that can raise is a function into [outcome]: it either
      returns a value or raises an exception, and in both cases hands back
      the (possibly modified) state, as a Python call does.
    - [hashlib.md5] is implemented in full (RFC 1321), so every definition
      below can be run on concrete inputs.
    - POSIX flavour of [pathlib] throughout. *)

From Stdlib Require Import ZArith Ascii String List.
From stdpp Require Import base decidable option list gmap strings pretty relations.

Local Open Scope string_scope.
Local Open Scope list_scope.
Local Open Scope Z_scope.

Definition bytes := list Byte.byte.

(** ** hashlib.md5 *)

Module hashlib.

Definition mask32 (x : Z) : Z := Z.land x 0xFFFFFFFF.

Definition rotl32 (x : Z) (c : Z) : Z :=
  mask32 (Z.lor (Z.shiftl x c) (Z.shiftr (mask32 x) (32 - c))).

Definition not32 (x : Z) : Z := Z.lxor (mask32 x) 0xFFFFFFFF.

Definition shift_amounts : list Z :=
  [7; 12; 17; 22; 7; 12; 17; 22; 7; 12; 17; 22; 7; 12; 17; 22;
   5;  9; 14; 20; 5;  9; 14; 20; 5;  9; 14; 20; 5;  9; 14; 20;
   4; 11; 16; 23; 4; 11; 16; 23; 4; 11; 16; 23; 4; 11; 16; 23;
   6; 10; 15; 21; 6; 10; 15; 21; 6; 10; 15; 21; 6; 10; 15; 21].

(** [K i = floor (2^32 * |sin (i + 1)|)]. *)
Definition sine_table : list Z :=
  [3614090360; 3905402710; 606105819; 3250441966; 4118548399; 1200080426;
   2821735955; 4249261313; 1770035416; 2336552879; 4294925233; 2304563134;
   1804603682; 4254626195; 2792965006; 1236535329; 4129170786; 3225465664;
   643717713; 3921069994; 3593408605; 38016083; 3634488961; 3889429448;
   568446438; 3275163606; 4107603335; 1163531501; 2850285829; 4243563512;
   1735328473; 2368359562; 4294588738; 2272392833; 1839030562; 4259657740;
   2763975236; 1272893353; 4139469664; 3200236656; 681279174; 3936430074;
   3572445317; 76029189; 3654602809; 3873151461; 530742520; 3299628645;
   4096336452; 1126891415; 2878612391; 4237533241; 1700485571; 2399980690;
   4293915773; 2240044497; 1873313359; 4264355552; 2734768916; 1309151649;
   4149444226; 3174756917; 718787259; 3951481745].

Definition byte_val (b : Byte.byte) : Z := Z.of_N (Byte.to_N b).

Definition byte_of_val (z : Z) : Byte.byte :=
  match Byte.of_N (Z.to_N (Z.land z 0xFF)) with
  | Some b => b
  | None => Byte.x00
  end.

(** [n] little-endian bytes of [z]. *)
Fixpoint le_bytes (n : nat) (z : Z) : bytes :=
  match n with
  | O => []
  | S n' => byte_of_val z :: le_bytes n' (Z.shiftr z 8)
  end.

Fixpoint le_value (bs : bytes) : Z :=
  match bs with
  | [] => 0
  | b :: bs' => byte_val b + 256 * le_value bs'
  end.

(** The message followed by 0x80, zeros up to 56 mod 64, and the bit
    length as a 64-bit little-endian integer. *)
Definition pad (msg : bytes) : bytes :=
  let len := Z.of_nat (length msg) in
  let zeros := Z.to_nat ((55 - len) mod 64) in
  msg ++ Byte.x80 :: repeat Byte.x00 zeros ++ le_bytes 8 ((8 * len) mod 2 ^ 64).

Fixpoint words_of (n : nat) (bs : bytes) : list Z :=
  match n with
  | O => []
  | S n' => le_value (take 4 bs) :: words_of n' (drop 4 bs)
  end.

Fixpoint blocks_of (n : nat) (bs : bytes) : list (list Z) :=
  match n with
  | O => []
  | S n' => words_of 16 (take 64 bs) :: blocks_of n' (drop 64 bs)
  end.

Definition regs : Type := Z * Z * Z * Z.

Definition round (M : list Z) (st : regs) (i : nat) : regs :=
  let '(A, B, C, D) := st in
  let iz := Z.of_nat i in
  let '(F, g) :=
    if iz <? 16 then (Z.lor (Z.land B C) (Z.land (not32 B) D), iz)
    else if iz <? 32 then (Z.lor (Z.land D B) (Z.land (not32 D) C), (5 * iz + 1) mod 16)
    else if iz <? 48 then (Z.lxor (Z.lxor B C) D, (3 * iz + 5) mod 16)
    else (Z.lxor C (Z.lor B (not32 D)), (7 * iz) mod 16) in
  let F' := mask32 (F + A + nth i sine_table 0 + nth (Z.to_nat g) M 0) in
  (D, mask32 (B + rotl32 F' (nth i shift_amounts 0)), B, C).

Definition compress (h : regs) (M : list Z) : regs :=
  let '(a0, b0, c0, d0) := h in
  let '(A, B, C, D) := fold_left (round M) (seq 0 64) h in
  (mask32 (a0 + A), mask32 (b0 + B), mask32 (c0 + C), mask32 (d0 + D)).

Definition digest (msg : bytes) : bytes :=
  let padded := pad msg in
  let '(a, b, c, d) :=
    fold_left compress (blocks_of (length padded / 64) padded)
              (0x67452301, 0xefcdab89, 0x98badcfe, 0x10325476) in
  le_bytes 4 a ++ le_bytes 4 b ++ le_bytes 4 c ++ le_bytes 4 d.

Definition hex_digit (z : Z) : ascii :=
  nth (Z.to_nat z) (list_ascii_of_string "0123456789abcdef") "0"%char.

Fixpoint hex (bs : bytes) : string :=
  match bs with
  | [] => ""
  | b :: bs' =>
      String (hex_digit (byte_val b / 16))
        (String (hex_digit (byte_val b mod 16)) (hex bs'))
  end.

(** [hashlib.md5(data).hexdigest()] *)
Definition md5_hexdigest (data : bytes) : string := hex (digest data).

End hashlib.

Definition encode_ascii (s : string) : bytes := list_byte_of_string s.


(** ** Python exceptions and calls that may raise *)

(** The exception classes that can surface from the storage layer.
    [MissingExternalResourceError] and [ChangedExternalResourceError] are the
    two classes imported from [gufe.storage.errors]; the others are Python
    built-ins. *)
Inductive exn :=
| MissingExternalResourceError (msg : string)
| ChangedExternalResourceError (msg : string)
| KeyError (key : string)
| OSError (msg : string)
| ValueError (msg : string)
| TypeError (msg : string)
| RecursionError
| LibraryError (msg : string).

Inductive outcome (S A : Type) :=
| Return (a : A) (s : S)
| Raise (e : exn) (s : S).
Arguments Return {S A} a s.
Arguments Raise {S A} e s.

(** A call made in state [S]: it returns or raises, and leaves a state. *)
Definition call (S A : Type) : Type := S -> outcome S A.

Definition ret {S A} (a : A) : call S A := fun s => Return a s.
Definition raise {S A} (e : exn) : call S A := fun s => Raise e s.
Definition bind {S A B} (m : call S A) (k : A -> call S B) : call S B :=
  fun s => match m s with
           | Return a s' => k a s'
           | Raise e s' => Raise e s'
           end.
Definition get_state {S} : call S S := fun s => Return s s.
Definition put_state {S} (s' : S) : call S unit := fun _ => Return tt s'.

(** A pure computation that may raise, lifted to a call. *)
Definition lift {S A} (r : exn + A) : call S A :=
  fun s => match r with inl e => Raise e s | inr a => Return a s end.

Declare Scope call_scope.
Delimit Scope call_scope with call.
Notation "x ← y ; z" := (bind y (fun x => z))
  (at level 20, y at level 100, z at level 200, only parsing) : call_scope.
Notation "' x ← y ; z" := (bind y (fun x => z))
  (at level 20, x pattern, y at level 100, z at level 200, only parsing) : call_scope.
Notation "x ;; z" := (bind x (fun _ => z))
  (at level 100, z at level 200, only parsing, right associativity) : call_scope.
Local Open Scope call_scope.

Definition returned {S A} (o : outcome S A) : option A :=
  match o with Return a _ => Some a | Raise _ _ => None end.
Definition raised {S A} (o : outcome S A) : option exn :=
  match o with Return _ _ => None | Raise e _ => Some e end.
Definition state_after {S A} (o : outcome S A) : S :=
  match o with Return _ s => s | Raise _ s => s end.

(** [isinstance(e, MissingExternalResourceError)] and
    [isinstance(e, ChangedExternalResourceError)]. *)
Definition is_missing (e : exn) : bool :=
  match e with MissingExternalResourceError _ => true | _ => false end.
Definition is_changed (e : exn) : bool :=
  match e with ChangedExternalResourceError _ => true | _ => false end.

(** ** str.split, str.join *)

(** [s.split(sep)] for a one-character separator. *)
Fixpoint split_on (sep : ascii) (s : string) : list string :=
  match s with
  | EmptyString => [EmptyString]
  | String c s' =>
      if Ascii.eqb c sep then EmptyString :: split_on sep s'
      else match split_on sep s' with
           | h :: t => String c h :: t
           | [] => [String c EmptyString]
           end
  end.

(** [sep.join(l)] *)
Definition join (sep : string) (l : list string) : string := String.concat sep l.

(** ** pathlib (POSIX flavour) *)

Module pathlib.

(** A pure path: its root ([anchor]: empty, one slash, or two slashes,
    which POSIX keeps apart from one) and its components. *)
Record PurePath := { anchor : string; parts : list string }.

Definition slash : ascii := "/"%char.

Definition parse_anchor (s : string) : string :=
  match s with
  | String c1 (String c2 (String c3 _)) =>
      if Ascii.eqb c1 slash
      then if Ascii.eqb c2 slash && negb (Ascii.eqb c3 slash) then "//" else "/"
      else ""
  | String c1 (String c2 EmptyString) =>
      if Ascii.eqb c1 slash then if Ascii.eqb c2 slash then "//" else "/" else ""
  | String c1 EmptyString => if Ascii.eqb c1 slash then "/" else ""
  | EmptyString => ""
  end.

Definition is_component (p : string) : bool :=
  negb (String.eqb p "") && negb (String.eqb p ".").

(** [pathlib.Path(s)]: empty components and single dots are dropped. *)
Definition Path (s : string) : PurePath :=
  {| anchor := parse_anchor s;
     parts := List.filter is_component (split_on slash s) |}.

(** [str(p)] *)
Definition str (p : PurePath) : string :=
  match anchor p, parts p with
  | EmptyString, [] => "."
  | a, ps => a +:+ join "/" ps
  end.

(** [p / q]: an anchored right operand replaces the left one. *)
Definition truediv (p q : PurePath) : PurePath :=
  if String.eqb (anchor q) "" then
    {| anchor := anchor p; parts := parts p ++ parts q |}
  else q.

(** [p.parent]; the parent of a path with no components is the path
    itself. *)
Definition parent (p : PurePath) : PurePath :=
  {| anchor := anchor p; parts := removelast (parts p) |}.

(** [p.name] *)
Definition name (p : PurePath) : string := List.last (parts p) "".

End pathlib.

(** ** The file system seen through open, mkdir, exists and unlink *)

Module os.
Import pathlib.

Inductive inode :=
| RegularFile (content : bytes)
| Directory.

(** Files and directories by path text, as handed to the system calls.
    A path with no components names the root or the working directory,
    which always exists. *)
Abbreviation filesystem := (gmap string inode).

Definition stat (fs : filesystem) (p : PurePath) : option inode :=
  match parts p with
  | [] => Some Directory
  | _ => fs !! str p
  end.

(** [p.exists()] *)
Definition exists_ (fs : filesystem) (p : PurePath) : bool :=
  match stat fs p with Some _ => true | None => false end.

(** [open(p, 'rb')] followed by reading the handle. *)
Definition open_rb (fs : filesystem) (p : PurePath) : exn + bytes :=
  match stat fs p with
  | Some (RegularFile content) => inr content
  | Some Directory => inl (OSError ("[Errno 21] Is a directory: '" +:+ str p +:+ "'"))
  | None => inl (OSError ("[Errno 2] No such file or directory: '" +:+ str p +:+ "'"))
  end.

(** [open(p, 'wb')], writing [data] and closing. *)
Definition open_wb (fs : filesystem) (p : PurePath) (data : bytes)
  : exn + filesystem :=
  match stat fs p with
  | Some Directory => inl (OSError ("[Errno 21] Is a directory: '" +:+ str p +:+ "'"))
  | _ =>
      match stat fs (parent p) with
      | Some Directory => inr (<[str p := RegularFile data]> fs)
      | Some (RegularFile _) =>
          inl (OSError ("[Errno 20] Not a directory: '" +:+ str p +:+ "'"))
      | None =>
          inl (OSError ("[Errno 2] No such file or directory: '" +:+ str p +:+ "'"))
      end
  end.

(** The chain of ancestors of [p], outermost first, ending with [p]. *)
Definition ancestors (p : PurePath) : list PurePath :=
  List.map (fun k => {| anchor := anchor p; parts := take k (parts p) |})
           (seq 1 (length (parts p))).

Fixpoint mkdir_chain (dirs : list PurePath) (fs : filesystem)
  : exn + filesystem :=
  match dirs with
  | [] => inr fs
  | d :: rest =>
      match stat fs d with
      | None => mkdir_chain rest (<[str d := Directory]> fs)
      | Some Directory => mkdir_chain rest fs
      | Some (RegularFile _) =>
          inl (OSError ("[Errno 17] File exists: '" +:+ str d +:+ "'"))
      end
  end.

(** [p.mkdir(parents=True, exist_ok=True)] *)
Definition mkdir_parents (fs : filesystem) (p : PurePath) : exn + filesystem :=
  mkdir_chain (ancestors p) fs.

(** [p.unlink()] *)
Definition unlink (fs : filesystem) (p : PurePath) : exn + filesystem :=
  match stat fs p with
  | Some (RegularFile _) => inr (delete (str p) fs)
  | Some Directory => inl (OSError ("[Errno 21] Is a directory: '" +:+ str p +:+ "'"))
  | None => inl (OSError ("[Errno 2] No such file or directory: '" +:+ str p +:+ "'"))
  end.

(** [str(e)] for an exception [e]. *)
Definition str_exn (e : exn) : string :=
  match e with
  | MissingExternalResourceError m | ChangedExternalResourceError m
  | OSError m | ValueError m | TypeError m | LibraryError m => m
  | KeyError k => "'" +:+ k +:+ "'"
  | RecursionError => "maximum recursion depth exceeded"
  end.

End os.

(** ** gufe/storage/externalresource.py *)

Import pathlib os.

(** The two concrete subclasses of the abstract base [ExternalStorage],
    each with the state its instance holds: [FileStorage] its root
    directory and the disk it writes to, [MemoryStorage] its [_data]
    dictionary. A method looks at the constructor, as a call dispatches on
    the class of [self]. *)
Inductive ExternalStorage :=
| FileStorage (root_dir : PurePath) (disk : filesystem)
| MemoryStorage (_data : gmap string bytes).

(** The interpreter state around one storage object: the object, the
    class attribute [allow_changed] and the warnings issued so far. *)
Record runtime := {
  storage : ExternalStorage;
  allow_changed : bool;
  warned : list string
}.

(** [allow_changed: ClassVar[bool] = False] *)
Definition default_allow_changed : bool := false.

Definition fresh_runtime (st : ExternalStorage) : runtime :=
  {| storage := st; allow_changed := default_allow_changed; warned := [] |}.

Definition set_storage (st : ExternalStorage) : call runtime unit :=
  fun w => Return tt {| storage := st; allow_changed := allow_changed w;
                        warned := warned w |}.

(** [warnings.warn(msg)] *)
Definition warn (msg : string) : call runtime unit :=
  fun w => Return tt {| storage := storage w; allow_changed := allow_changed w;
                        warned := warned w ++ [msg] |}.

(** [FileStorage._as_path] *)
Definition _as_path (root_dir : PurePath) (location : string) : PurePath :=
  truediv root_dir (Path location).

Definition _exists (location : string) : call runtime bool :=
  w ← get_state;
  match storage w with
  | FileStorage root_dir disk => ret (exists_ disk (_as_path root_dir location))
  | MemoryStorage _data => ret (bool_decide (is_Some (_data !! location)))
  end.

(** [FileStorage._load_stream] turns every [OSError] of [open] into a
    [MissingExternalResourceError]; [MemoryStorage._load_stream] indexes
    the dictionary, with no handler around it. The stream is modelled by
    the bytes that reading it gives. *)
Definition _load_stream (location : string) : call runtime bytes :=
  w ← get_state;
  match storage w with
  | FileStorage root_dir disk =>
      match open_rb disk (_as_path root_dir location) with
      | inr content => ret content
      | inl e => raise (MissingExternalResourceError (str_exn e))
      end
  | MemoryStorage _data =>
      match _data !! location with
      | Some byte_data => ret byte_data
      | None => raise (KeyError location)
      end
  end.

Definition _get_hexdigest (location : string) : call runtime string :=
  filelike ← _load_stream location;
  ret (hashlib.md5_hexdigest filelike).

Definition get_metadata (location : string) : call runtime string :=
  _get_hexdigest location.

Definition validate (location metadata : string) : call runtime unit :=
  current ← get_metadata location;
  if negb (String.eqb current metadata) then
    let msg := "Hash mismatch for " +:+ location +:+ ": this object "
               +:+ "may have changed." in
    w ← get_state;
    if negb (allow_changed w) then
      raise (ChangedExternalResourceError
               (msg +:+ " To allow this, set ExternalStorage."
                    +:+ "allow_changed = True"))
    else warn msg
  else ret tt.

(** [MemoryStorage._get_filename] is [pass]: it returns [None]. *)
Definition _get_filename (location : string) : call runtime (option string) :=
  w ← get_state;
  match storage w with
  | FileStorage root_dir _ => ret (Some (str (_as_path root_dir location)))
  | MemoryStorage _ => ret None
  end.

Definition get_filename (location metadata : string)
  : call runtime (option string) :=
  validate location metadata;;
  _get_filename location.

(** The [_ForceContext] wrapper only restricts how the stream is used; what
    can be read through it is what [_load_stream] opened. *)
Definition load_stream (location metadata : string) : call runtime bytes :=
  validate location metadata;;
  _load_stream location.

(** [ExternalStorage.exists] *)
Definition exists_at (location : string) : call runtime bool :=
  _exists location.

Definition _delete (location : string) : call runtime unit :=
  w ← get_state;
  match storage w with
  | FileStorage root_dir disk =>
      let path := _as_path root_dir location in
      present ← exists_at location;
      if (present : bool) then
        disk' ← lift (unlink disk path);
        set_storage (FileStorage root_dir disk')
      else
        raise (MissingExternalResourceError
                 ("Unable to delete '" +:+ str path +:+ "': File does not exist"))
  | MemoryStorage _data =>
      match _data !! location with
      | Some _ => set_storage (MemoryStorage (delete location _data))
      | None =>
          raise (MissingExternalResourceError
                   ("Unable to delete '" +:+ location +:+ "': key does not exist"))
      end
  end.

(** [ExternalStorage.delete] *)
Definition delete_at (location : string) : call runtime unit :=
  _delete location.

Definition _store (location : string) (byte_data : bytes)
  : call runtime (string * string) :=
  w ← get_state;
  match storage w with
  | FileStorage root_dir disk =>
      let path := _as_path root_dir location in
      let directory := parent path in
      disk1 ← lift (mkdir_parents disk directory);
      set_storage (FileStorage root_dir disk1);;
      disk2 ← lift (open_wb disk1 path byte_data);
      set_storage (FileStorage root_dir disk2);;
      metadata ← get_metadata (str path);
      ret (str path, metadata)
  | MemoryStorage _data =>
      set_storage (MemoryStorage (<[location := byte_data]> _data));;
      metadata ← get_metadata location;
      ret (location, metadata)
  end.

Definition store (location : string) (byte_data : bytes)
  : call runtime (string * string) :=
  _store location byte_data.

(** ** Collaborators of gufe/storage/resultclient.py *)

(** Values used as keys of the result hierarchy: strings, and other
    hashable objects. *)
Inductive pyobj :=
| PyNone
| PyStr (s : string)
| PyInt (z : Z)
| PyObject (label : string).

(** A tokenizable object as the result client sees it: its [key], the JSON
    text of its keyed dictionary ([json.dumps(o.to_keyed_dict(),
    sort_keys=True)]), and the tokenizable objects found directly inside
    its shallow dictionary. *)
#[warnings="-register-all"]
Inductive tokenizable :=
| Tok (key : string) (keyed_json : string) (deps : list tokenizable).

Definition key_of (o : tokenizable) : string :=
  match o with Tok key _ _ => key end.
Definition keyed_json_of (o : tokenizable) : string :=
  match o with Tok _ keyed_json _ => keyed_json end.
Definition deps_of (o : tokenizable) : list tokenizable :=
  match o with Tok _ _ deps => deps end.

#[export] Instance tokenizable_eq_dec : EqDecision tokenizable.
Proof.
  refine (fix go (a b : tokenizable) : Decision (a = b) :=
    match a, b with
    | Tok k j d, Tok k' j' d' =>
        match decide (k = k'), decide (j = j') with
        | left Hk, left Hj =>
            match (fix go_list (l l' : list tokenizable) : Decision (l = l') :=
                     match l, l' with
                     | [], [] => left eq_refl
                     | x :: l, y :: l' =>
                         match go x y, go_list l l' with
                         | left _, left _ => left _
                         | _, _ => right _
                         end
                     | _, _ => right _
                     end) d d' with
            | left Hd => left _
            | right _ => right _
            end
        | _, _ => right _
        end
    end); congruence.
Defined.

(** What one interpreter process fixes: the built-in [hash] (for strings and
    for objects hashed by identity it changes from one process to the
    next), [str] of an object without a [__str__] of its own, the order in
    which a [set] is iterated, and the recursion limit. *)
Class Interpreter := {
  hash : pyobj -> Z;
  str_object : string -> string;
  set_iteration : forall A : Type, EqDecision A -> list A -> list A;
  recursion_limit : nat
}.
Arguments set_iteration {_ A _} l.

(** [str(item)] *)
Definition py_str `{Interpreter} (item : pyobj) : string :=
  match item with
  | PyNone => "None"
  | PyStr s => s
  | PyInt z => pretty z
  | PyObject label => str_object label
  end.

(** A set is iterated in some order, each member once. *)
Class SetIteration `{Interpreter} : Prop := {
  set_iteration_elem : forall A `{EqDecision A} (l : list A) (x : A),
      x ∈ set_iteration l <-> x ∈ l;
  set_iteration_NoDup : forall A `{EqDecision A} (l : list A),
      NoDup (set_iteration l)
}.

(** The interface the result client uses of [ResultServer]
    (gufe/storage/resultserver.py): membership of a location, a validated
    read, a write, a delete and the iteration over known locations. *)
Class ResultServer (S : Type) := {
  rs_contains : S -> string -> bool;
  rs_load_stream : string -> bool -> call S bytes;
  rs_store_bytes : string -> bytes -> call S unit;
  rs_delete : string -> call S unit;
  rs_iter : S -> list string
}.

(** Modelled from the spec: [ResultServer] combined with
    [JSONMetadataStore] (gufe/storage/resultserver.py and
    gufe/storage/metadatastore.py), the Storage Facade of the
    specification, which composes a backend and the integrity validator
    with a store of known (location, digest) pairs into one
    store/load/delete/exists interface with validated reads. A write
    records the digest under the location it was asked to write; a
    location is known when a digest is recorded for it; a read validates
    against the recorded digest, under the process-wide flag. *)
Record facade := {
  external_store : runtime;
  metadata_store : gmap string string
}.

Definition on_external {A} (m : call runtime A) : call facade A :=
  fun f => match m (external_store f) with
           | Return a w => Return a {| external_store := w;
                                       metadata_store := metadata_store f |}
           | Raise e w => Raise e {| external_store := w;
                                     metadata_store := metadata_store f |}
           end.

Definition set_metadata (m : gmap string string) : call facade unit :=
  fun f => Return tt {| external_store := external_store f; metadata_store := m |}.

Definition facade_contains (f : facade) (location : string) : bool :=
  bool_decide (is_Some (metadata_store f !! location)).

Definition facade_load_stream (location : string) (allow_changed : bool)
  : call facade bytes :=
  f ← get_state;
  match metadata_store f !! location with
  | Some metadata => on_external (load_stream location metadata)
  | None =>
      raise (MissingExternalResourceError
               ("Metadata for '" +:+ location +:+ "' not found"))
  end.

Definition facade_store_bytes (location : string) (byte_data : bytes)
  : call facade unit :=
  ' (_, metadata) ← on_external (store location byte_data);
  f ← get_state;
  set_metadata (<[location := metadata]> (metadata_store f)).

Definition facade_delete (location : string) : call facade unit :=
  f ← get_state;
  set_metadata (delete location (metadata_store f));;
  on_external (delete_at location).

Definition facade_iter (f : facade) : list string :=
  List.map fst (map_to_list (metadata_store f)).

#[export] Instance facade_server : ResultServer facade := {|
  rs_contains := facade_contains;
  rs_load_stream := facade_load_stream;
  rs_store_bytes := facade_store_bytes;
  rs_delete := facade_delete;
  rs_iter := facade_iter
|}.

(** What the tokenization layer (gufe/base.py) and the [json] library
    provide for loading: decoding and parsing a record, and
    [key_decode_dependencies], which rebuilds an object from a parsed
    record using the registry of objects created so far. *)
Class Tokenization (Json Registry Decoded : Type) := {
  decode_utf8 : bytes -> exn + string;
  json_loads : string -> exn + Json;
  key_decode_dependencies : Json -> call Registry Decoded
}.

(** [s.encode('utf-8')]; a [string] holds the encoded text. *)
Definition encode_utf8 (s : string) : bytes := list_byte_of_string s.

(** ** gufe/storage/resultclient.py *)

(** The four container classes. The fields set once in [__init__]
    ([parent], [_path_component] and the level's own attribute) are part
    of the value; [id] is the identity of the instance, and the mutable
    [_cache] dictionary of an instance lives in the [world], under that
    identity. [ResultClient] is its own parent. *)
Inductive container :=
| ResultClient (id : nat) (_path_component : string)
| TransformationResult (id : nat) (parent : container)
    (_path_component : string) (transformation : pyobj)
| CloneResult (id : nat) (parent : container)
    (_path_component : string) (clone : pyobj)
| ExtensionResult (id : nat) (parent : container)
    (_path_component : string) (extension : pyobj).

Definition id_of (c : container) : nat :=
  match c with
  | ResultClient id _ | TransformationResult id _ _ _
  | CloneResult id _ _ _ | ExtensionResult id _ _ _ => id
  end.

Definition parent_of (c : container) : container :=
  match c with
  | ResultClient _ _ => c
  | TransformationResult _ p _ _ | CloneResult _ p _ _
  | ExtensionResult _ p _ _ => p
  end.

Definition path_component_of (c : container) : string :=
  match c with
  | ResultClient _ pc | TransformationResult _ _ pc _
  | CloneResult _ _ pc _ | ExtensionResult _ _ pc _ => pc
  end.

Definition is_root (c : container) : bool :=
  match c with ResultClient _ _ => true | _ => false end.

(** What indexing a container gives: an open stream (its bytes) or a
    container one level down. *)
Inductive value :=
| Stream (content : bytes)
| Child (node : container).

(** The state the result client works in: the result server shared by the
    whole tree, the [_cache] of every container, the allocation counter for
    new instances, the registry of decoded objects, and a record of the
    calls made to [store_bytes] (not part of the program; kept to speak
    about writes). *)
Record world (S Registry : Type) := {
  result_server : S;
  caches : gmap nat (gmap string value);
  next_id : nat;
  registry : Registry;
  store_calls : list (string * bytes)
}.
Arguments result_server {S Registry} w.
Arguments caches {S Registry} w.
Arguments next_id {S Registry} w.
Arguments registry {S Registry} w.
Arguments store_calls {S Registry} w.

(** [ResultClient.path] is overridden with the literal; every other class
    inherits [_ResultContainer.path]. *)
Fixpoint path (self : container) : string :=
  match self with
  | ResultClient _ _ => "transformations"
  | TransformationResult _ parent _path_component _
  | CloneResult _ parent _path_component _
  | ExtensionResult _ parent _path_component _ =>
      path parent +:+ "/" +:+ _path_component
  end.

(** [a.startswith(b)] *)
Definition startswith (a b : string) : bool := String.prefix b a.

(** [_gufe_key_to_storage_key]; unpacking [key.split('-')] into two names
    raises [ValueError] unless there are exactly two pieces. *)
Definition _gufe_key_to_storage_key (prefix key : string) : exn + string :=
  let prefix := split_on "/"%char prefix in
  match split_on "-"%char key with
  | [cls; token] => inr (join "/" (prefix ++ [cls; token +:+ ".json"]))
  | [_] => inl (ValueError "not enough values to unpack (expected 2, got 1)")
  | _ => inl (ValueError "too many values to unpack (expected 2)")
  end.

(** Modelled from the spec: [modify_dependencies] with [is_gufe_obj]
    (gufe/base.py) walks the shallow dictionary and calls the modifier on
    every tokenizable object in it, continuing inside what the modifier
    returns; so the modifier of [get_all_gufe_objs] is called on every
    tokenizable object reachable through nested shallow dictionaries. *)
Fixpoint modifier_calls (o : tokenizable) : list tokenizable :=
  match o with
  | Tok _ _ deps => List.flat_map (fun d => d :: modifier_calls d) deps
  end.

(** [get_all_gufe_objs]: the members put into the [results] set, in the
    order of insertion. *)
Definition get_all_gufe_objs (obj : tokenizable) : list tokenizable :=
  obj :: modifier_calls obj.

Fixpoint for_each {S A} (body : A -> call S unit) (l : list A) : call S unit :=
  match l with
  | [] => ret tt
  | x :: rest => body x;; for_each body rest
  end.

(** The pattern of [_load_gufe_tokenizable]: the marker field, then a
    token made of a run of word characters, a dash and a run of lower-case
    hexadecimal digits, between double quotes. *)
Module regex.

Definition dquote : ascii := "034"%char.

(** The literal text in front of the group: the quoted marker, a colon,
    a space and the opening quote. *)
Definition marker : string :=
  String dquote (":gufe-key:" +:+ String dquote (": " +:+ String dquote "")).

Fixpoint strip_prefix (p s : string) : option string :=
  match p, s with
  | EmptyString, _ => Some s
  | String a p', String b s' => if Ascii.eqb a b then strip_prefix p' s' else None
  | String _ _, EmptyString => None
  end.

Fixpoint span (P : ascii -> bool) (s : string) : string * string :=
  match s with
  | EmptyString => (EmptyString, EmptyString)
  | String c s' =>
      if P c then let '(a, b) := span P s' in (String c a, b)
      else (EmptyString, s)
  end.

Definition in_range (lo hi c : ascii) : bool :=
  (nat_of_ascii lo <=? nat_of_ascii c)%nat && (nat_of_ascii c <=? nat_of_ascii hi)%nat.

(** [[A-Za-z0-9_]] *)
Definition is_word (c : ascii) : bool :=
  in_range "A" "Z" c || in_range "a" "z" c || in_range "0" "9" c
  || Ascii.eqb c "_".

(** [[0-9a-f]] *)
Definition is_hex (c : ascii) : bool :=
  in_range "0" "9" c || in_range "a" "f" c.

(** A match starting at the head of [s]: the token and the text after
    the closing quote. Both runs are greedy, and the character required
    after each run is outside its class, so nothing is given back. *)
Definition match_here (s : string) : option (string * string) :=
  match strip_prefix marker s with
  | None => None
  | Some rest =>
      let '(cls, r1) := span is_word rest in
      match cls, r1 with
      | String _ _, String dash r2 =>
          if Ascii.eqb dash "-" then
            let '(tok, r3) := span is_hex r2 in
            match tok, r3 with
            | String _ _, String q r4 =>
                if Ascii.eqb q dquote
                then Some (cls +:+ "-" +:+ tok, r4)
                else None
            | _, _ => None
            end
          else None
      | _, _ => None
      end
  end.

(** Matches from left to right, not overlapping; [fuel] bounds the number
    of positions tried. *)
Fixpoint findall_from (fuel : nat) (s : string) : list string :=
  match fuel with
  | O => []
  | Datatypes.S fuel' =>
      match match_here s with
      | Some (token, rest) => token :: findall_from fuel' rest
      | None =>
          match s with
          | EmptyString => []
          | String _ s' => findall_from fuel' s'
          end
      end
  end.

(** [regex.findall(s)] *)
Definition findall (s : string) : list string :=
  findall_from (Datatypes.S (String.length s)) s.

End regex.

Section ResultClientMethods.
Context {S Json Registry Decoded : Type}.
Context `{!Interpreter, !ResultServer S, !Tokenization Json Registry Decoded}.

Local Abbreviation world := (world S Registry).

Definition on_server {A} (m : call S A) : call world A :=
  fun w =>
    let rebuild s := {| result_server := s; caches := caches w;
                        next_id := next_id w; registry := registry w;
                        store_calls := store_calls w |} in
    match m (result_server w) with
    | Return a s => Return a (rebuild s)
    | Raise e s => Raise e (rebuild s)
    end.

Definition on_registry {A} (m : call Registry A) : call world A :=
  fun w =>
    let rebuild r := {| result_server := result_server w; caches := caches w;
                        next_id := next_id w; registry := r;
                        store_calls := store_calls w |} in
    match m (registry w) with
    | Return a r => Return a (rebuild r)
    | Raise e r => Raise e (rebuild r)
    end.

(** [result_server.store_bytes(key, data)], noted in [store_calls]. *)
Definition store_bytes (key : string) (data : bytes) : call world unit :=
  fun w =>
    on_server (rs_store_bytes key data)
      {| result_server := result_server w; caches := caches w;
         next_id := next_id w; registry := registry w;
         store_calls := store_calls w ++ [(key, data)] |}.

(** A new instance: the next free identity, with an empty [_cache]. *)
Definition allocate : call world nat :=
  fun w =>
    Return (next_id w)
      {| result_server := result_server w;
         caches := <[next_id w := ∅]> (caches w);
         next_id := Datatypes.S (next_id w); registry := registry w;
         store_calls := store_calls w |}.

Definition get_cache (self : container) : call world (gmap string value) :=
  fun w => Return (default ∅ (caches w !! id_of self)) w.

Definition set_cache (self : container) (c : gmap string value)
  : call world unit :=
  fun w =>
    Return tt {| result_server := result_server w;
                 caches := <[id_of self := c]> (caches w);
                 next_id := next_id w; registry := registry w;
                 store_calls := store_calls w |}.

(** [_ResultContainer._to_path_component] *)
Definition _ResultContainer_to_path_component (item : pyobj) : string :=
  match item with
  | PyStr s => s
  | _ => pretty (hash item)
  end.

(** The overrides in [CloneResult] and [ExtensionResult]. *)
Definition CloneResult_to_path_component (item : pyobj) : string :=
  py_str item.
Definition ExtensionResult_to_path_component (item : pyobj) : string :=
  py_str item.

(** [self._to_path_component(item)], by the class of [self]. *)
Definition _to_path_component (self : container) (item : pyobj) : string :=
  match self with
  | ResultClient _ _ | TransformationResult _ _ _ _ =>
      _ResultContainer_to_path_component item
  | CloneResult _ _ _ _ => CloneResult_to_path_component item
  | ExtensionResult _ _ _ _ => ExtensionResult_to_path_component item
  end.

(** [ResultClient(external_store)]: the container part of [__init__],
    called with [parent=self] and [path_component=None]. *)
Definition ResultClient_init : call world container :=
  id ← allocate;
  ret (ResultClient id (_ResultContainer_to_path_component PyNone)).

Definition TransformationResult_init (parent : container)
    (transformation : pyobj) : call world container :=
  id ← allocate;
  ret (TransformationResult id parent
         (_ResultContainer_to_path_component transformation) transformation).

Definition CloneResult_init (parent : container) (clone : pyobj)
  : call world container :=
  id ← allocate;
  ret (CloneResult id parent (CloneResult_to_path_component clone) clone).

(** [ExtensionResult.__init__] passes [str(extension)] up. *)
Definition ExtensionResult_init (parent : container) (extension : pyobj)
  : call world container :=
  id ← allocate;
  ret (ExtensionResult id parent
         (ExtensionResult_to_path_component (PyStr (py_str extension)))
         extension).

(** [item in self.result_server]: locations are strings, and an item
    that is not a string is taken not to be among them. *)
Definition in_result_server (item : pyobj) (s : S) : bool :=
  match item with
  | PyStr location => rs_contains s location
  | _ => false
  end.

(** [self.result_server.load_stream(location)], the second parameter
    left at its default, taken to be [False] as in the container's own
    [load_stream]. *)
Definition server_load_stream (item : pyobj) : call world bytes :=
  match item with
  | PyStr location => on_server (rs_load_stream location false)
  | _ => raise (TypeError "location must be str")
  end.

(** [self._load_next_level(item)], by the class of [self]. For an
    [ExtensionResult] the item names a file under the node's path, and
    adding a non-string to a string raises [TypeError]. *)
Definition _load_next_level (self : container) (item : pyobj)
  : call world value :=
  match self with
  | ResultClient _ _ =>
      c ← TransformationResult_init self item; ret (Child c)
  | TransformationResult _ _ _ _ =>
      c ← CloneResult_init self item; ret (Child c)
  | CloneResult _ _ _ _ =>
      c ← ExtensionResult_init self item; ret (Child c)
  | ExtensionResult _ _ _ _ =>
      match item with
      | PyStr filename =>
          content ← on_server
                      (rs_load_stream (path self +:+ "/" +:+ filename) false);
          ret (Stream content)
      | _ => raise (TypeError "can only concatenate str to str")
      end
  end.

(** [_ResultContainer.__getitem__] *)
Definition _ResultContainer_getitem (self : container) (item : pyobj)
  : call world value :=
  w ← get_state;
  if in_result_server item (result_server w) then
    content ← server_load_stream item;
    ret (Stream content)
  else
    let hash_item := _to_path_component self item in
    cache ← get_cache self;
    match cache !! hash_item with
    | None =>
        v ← _load_next_level self item;
        cache ← get_cache self;
        set_cache self (<[hash_item := v]> cache)
    | Some _ => ret tt
    end;;
    cache ← get_cache self;
    match cache !! hash_item with
    | Some v => ret v
    | None => raise (KeyError hash_item)
    end.

(** [self[item]]: [ExtensionResult] overrides [__getitem__]. *)
Definition __getitem__ (self : container) (item : pyobj) : call world value :=
  match self with
  | ExtensionResult _ _ _ _ => _load_next_level self item
  | _ => _ResultContainer_getitem self item
  end.

(** [self / item] *)
Definition __truediv__ (self : container) (item : pyobj) : call world value :=
  __getitem__ self item.

(** [__iter__], as the list of what it yields. *)
Definition __iter__ (self : container) (w : world) : list string :=
  List.filter (fun loc => startswith loc (path self)) (rs_iter (result_server w)).

(** [_ResultContainer.load_stream] and [load_bytes] *)
Definition container_load_stream (location : string) (allow_changed : bool)
  : call world bytes :=
  on_server (rs_load_stream location allow_changed).

Definition load_bytes (location : string) (allow_changed : bool)
  : call world bytes :=
  container_load_stream location allow_changed.

(** [ResultClient.delete] *)
Definition ResultClient_delete (location : string) : call world unit :=
  on_server (rs_delete location).

(** The body of the loop of [_store_gufe_tokenizable]. *)
Definition store_if_unknown (prefix : string) (o : tokenizable)
  : call world unit :=
  key ← lift (_gufe_key_to_storage_key prefix (key_of o));
  w ← get_state;
  if negb (rs_contains (result_server w) key) then
    let data := encode_utf8 (keyed_json_of o) in
    store_bytes key data
  else ret tt.

(** The loop over a given enumeration of the objects. *)
Definition store_each (prefix : string) (objs : list tokenizable)
  : call world unit :=
  for_each (store_if_unknown prefix) objs.

Definition _store_gufe_tokenizable (prefix : string) (obj : tokenizable)
  : call world unit :=
  store_each prefix (set_iteration (get_all_gufe_objs obj)).

Definition store_transformation (transformation : tokenizable)
  : call world unit :=
  _store_gufe_tokenizable "setup" transformation.

Definition store_network (network : tokenizable) : call world unit :=
  _store_gufe_tokenizable "setup" network.

(** [recursive_build_object_cache], the inner function of
    [_load_gufe_tokenizable]. [depth] is the number of nested calls the
    interpreter still allows; at zero the call raises [RecursionError]. *)
Fixpoint recursive_build_object_cache (depth : nat) (prefix gufe_key : string)
  : call world Decoded :=
  match depth with
  | O => raise RecursionError
  | Datatypes.S depth' =>
      storage_key ← lift (_gufe_key_to_storage_key prefix gufe_key);
      content ← container_load_stream storage_key false;
      keyencoded_json ← lift (decode_utf8 content);
      dct ← lift (json_loads keyencoded_json);
      let key_encoded := set_iteration (regex.findall keyencoded_json) in
      for_each (fun key =>
                  recursive_build_object_cache depth' prefix key;; ret tt)
               key_encoded;;
      on_registry (key_decode_dependencies dct)
  end.

Definition _load_gufe_tokenizable (prefix gufe_key : string)
  : call world Decoded :=
  recursive_build_object_cache recursion_limit prefix gufe_key.

Definition load_transformation (key : string) : call world Decoded :=
  _load_gufe_tokenizable "setup" key.

Definition load_network (key : string) : call world Decoded :=
  _load_gufe_tokenizable "setup" key.

End ResultClientMethods.

(** ** Vocabulary for the statements *)

(** The state [w] after one more warning. *)
Definition with_warning (w : runtime) (msg : string) : runtime :=
  {| storage := storage w; allow_changed := allow_changed w;
     warned := warned w ++ [msg] |}.

(** The text [validate] warns with. *)
Definition mismatch_message (location : string) : string :=
  "Hash mismatch for " +:+ location +:+ ": this object may have changed.".


(** [c in s] *)
Fixpoint has_char (c : ascii) (s : string) : bool :=
  match s with
  | EmptyString => false
  | String a s' => Ascii.eqb a c || has_char c s'
  end.

(** A path as [pathlib] builds it: one of the three anchors, and components
    that are not empty, not a single dot, and hold no slash. *)
Definition is_part (p : string) : Prop :=
  has_char slash p = false /\ is_component p = true.

Definition wf_path (p : PurePath) : Prop :=
  (anchor p = "" \/ anchor p = "/" \/ anchor p = "//") /\ Forall is_part (parts p).

Section ResultClientVocabulary.
Context {S Json Registry Decoded : Type}.
Context `{!Interpreter, !ResultServer S, !Tokenization Json Registry Decoded}.

Local Abbreviation world := (world S Registry).

(** The [_cache] dictionary of [self] in [w]. *)
Definition cache_of (self : container) (w : world) : gmap string value :=
  default ∅ (caches w !! id_of self).

Definition is_extension (self : container) : bool :=
  match self with ExtensionResult _ _ _ _ => true | _ => false end.

(** [self] was created before [w]: a later allocation cannot take its
    identity. *)
Definition allocated (self : container) (w : world) : Prop :=
  (id_of self < next_id w)%nat.

(** Every container held in some [_cache] was created before [w]. *)
Definition cached_allocated (w : world) : Prop :=
  forall (i : nat) (cache : gmap string value) (h : string) (n : container),
    caches w !! i = Some cache -> cache !! h = Some (Child n) -> allocated n w.

(** [v[item]] for a value got from an earlier indexing; a stream cannot
    be indexed. *)
Definition index_value (v : value) (item : pyobj) : call world value :=
  match v with
  | Child node => __getitem__ node item
  | Stream _ => raise (TypeError "object is not subscriptable")
  end.

(** [self[t][c][e]] *)
Definition chained (self : container) (t c e : pyobj) : call world value :=
  a ← __getitem__ self t;
  b ← index_value a c;
  index_value b e.

(** What a program holding the client can do with it. *)
Inductive operation :=
| Index (node : container) (item : pyobj)
| Divide (node : container) (item : pyobj)
| StoreTokenizable (prefix : string) (obj : tokenizable)
| LoadTokenizable (prefix gufe_key : string)
| LoadStream (location : string) (allow_changed : bool)
| Delete (location : string).

(** The world after one operation, whatever it returned or raised. *)
Definition perform (op : operation) (w : world) : world :=
  match op with
  | Index node item => state_after (__getitem__ node item w)
  | Divide node item => state_after (__truediv__ node item w)
  | StoreTokenizable prefix obj =>
      state_after (_store_gufe_tokenizable prefix obj w)
  | LoadTokenizable prefix gufe_key =>
      state_after (_load_gufe_tokenizable prefix gufe_key w)
  | LoadStream location allow_changed =>
      state_after (container_load_stream location allow_changed w)
  | Delete location => state_after (ResultClient_delete location w)
  end.

(** The world after a series of operations. *)
Fixpoint after_operations (ops : list operation) (w : world) : world :=
  match ops with
  | [] => w
  | op :: rest => after_operations rest (perform op w)
  end.

(** A call that creates no container and touches no cache. *)
Definition keeps_containers {A} (m : call world A) : Prop :=
  forall w, caches (state_after (m w)) = caches w /\
            next_id (state_after (m w)) = next_id w.

(** [item] names a location beneath the node [self]: either as a name
    relative to the node's path, or as a full location under that
    path. *)
Definition names_location_beneath (self : container) (item : pyobj) (s : S)
  : bool :=
  match item with
  | PyStr name =>
      rs_contains s (path self +:+ "/" +:+ name)
      || (rs_contains s name && startswith name (path self +:+ "/"))
  | _ => false
  end.

(** The world after [self] created the child [n] under the cache key
    [h]: the new instance has an empty cache, and the cache of [self]
    gained the entry. *)
Definition world_after_miss (self : container) (h : string) (n : container)
    (w : world) : world :=
  let fresh := <[next_id w := ∅]> (caches w) in
  {| result_server := result_server w;
     caches := <[id_of self := <[h := Child n]> (default ∅ (fresh !! id_of self))]>
                 fresh;
     next_id := Datatypes.S (next_id w);
     registry := registry w;
     store_calls := store_calls w |}.

(** The world with one more call of [store_bytes] noted. *)
Definition logged (key : string) (data : bytes) (w : world) : world :=
  {| result_server := result_server w; caches := caches w;
     next_id := next_id w; registry := registry w;
     store_calls := store_calls w ++ [(key, data)] |}.

(** The keys with which [store_bytes] was called between [w] and a later
    world [w']. *)
Definition written_between (w w' : world) : list string :=
  fst <$> drop (length (store_calls w)) (store_calls w').

End ResultClientVocabulary.

(** ** Sample collaborators, used to run the definitions *)

(** An interpreter process with hash seed [seed]: integers hash to
    themselves, everything else to a value that moves with the seed. *)
Definition sample_hash (seed : Z) (o : pyobj) : Z :=
  match o with
  | PyInt z => z
  | PyNone => seed
  | PyStr s => seed + Z.of_nat (String.length s) + 1
  | PyObject label => seed * 16 + Z.of_nat (String.length label)
  end.

Definition process_with_seed (seed : Z) : Interpreter := {|
  hash := sample_hash seed;
  str_object := fun label => "<" +:+ label +:+ ">";
  set_iteration := fun A _ l => remove_dups l;
  recursion_limit := 1000
|}.

(** Records kept as text, every text taken as valid, the decoded object
    being the text itself; the registry counts the objects decoded. *)
Definition sample_tokenization : Tokenization string nat string := {|
  decode_utf8 := fun b => inr (string_of_list_byte b);
  json_loads := fun s => inr s;
  key_decode_dependencies := fun dct n => Return dct (Datatypes.S n)
|}.

Definition empty_facade (st : ExternalStorage) : facade :=
  {| external_store := fresh_runtime st; metadata_store := ∅ |}.

Definition new_world {S} (s : S) : world S nat :=
  {| result_server := s; caches := ∅; next_id := 0%nat; registry := 0%nat;
     store_calls := [] |}.

(** A world with nothing stored, over an in-memory backend. *)
Definition empty_world : world facade nat :=
  new_world (empty_facade (MemoryStorage ∅)).

Definition sample_process : Interpreter := process_with_seed 0.

(** A facade over an in-memory backend that holds one record, stored under
    the serializer's namespace. *)
Definition facade_with_setup_record : facade :=
  state_after (facade_store_bytes "setup/Ext/0e.json" (encode_ascii "{}")
                 (empty_facade (MemoryStorage ∅))).

(** A world with a [ResultClient] already created, of identity 0. *)
Definition world_with_root {S} (s : S) : world S nat :=
  {| result_server := s; caches := {[ 0%nat := ∅ ]}; next_id := 1%nat;
     registry := 0%nat; store_calls := [] |}.

Definition sample_root : container := ResultClient 0 "0".

Definition sample_extension : container :=
  ExtensionResult 3
    (CloneResult 2 (TransformationResult 1 sample_root "t1" (PyStr "t1"))
       "0" (PyInt 0))
    "1" (PyInt 1).

(** A transformation [T] with two clones that share one extension, as
    keyed JSON records. *)
Definition quoted (s : string) : string :=
  String regex.dquote (s +:+ String regex.dquote "").

Definition key_reference (key : string) : string :=
  "{" +:+ quoted ":gufe-key:" +:+ ": " +:+ quoted key +:+ "}".

Definition sample_E : tokenizable :=
  Tok "Extension-0e" ("{" +:+ quoted "n" +:+ ": 1}") [].
Definition sample_C1 : tokenizable :=
  Tok "Clone-c1" ("{" +:+ quoted "ext" +:+ ": " +:+ key_reference "Extension-0e" +:+ "}")
      [sample_E].
Definition sample_C2 : tokenizable :=
  Tok "Clone-c2" ("{" +:+ quoted "ext" +:+ ": " +:+ key_reference "Extension-0e" +:+ "}")
      [sample_E].
Definition sample_T : tokenizable :=
  Tok "Transformation-0a"
      ("{" +:+ quoted "clones" +:+ ": [" +:+ key_reference "Clone-c1" +:+ ", "
           +:+ key_reference "Clone-c2" +:+ "]}")
      [sample_C1; sample_C2].

Section LoadVocabulary.
Context {S Json Registry Decoded : Type}.
Context `{!ResultServer S, !Tokenization Json Registry Decoded}.

(** The stored record of [gufe_key] can be read: its storage key can be
    formed and the result server returns its content. *)
Definition resolved (prefix : string) (s : S) (gufe_key : string) : Prop :=
  exists storage_key content s',
    _gufe_key_to_storage_key prefix gufe_key = inr storage_key /\
    rs_load_stream storage_key false s = Return content s'.

(** The storage key can be formed, and reading it raises. *)
Definition unresolved (prefix : string) (s : S) (gufe_key : string) : Prop :=
  exists storage_key e s',
    _gufe_key_to_storage_key prefix gufe_key = inr storage_key /\
    rs_load_stream storage_key false s = Raise e s'.

(** The text of the stored record of [gufe_key], when it can be read and
    decoded. *)
Definition record_text (prefix : string) (s : S) (gufe_key : string)
  : option string :=
  match _gufe_key_to_storage_key prefix gufe_key with
  | inr storage_key =>
      match rs_load_stream storage_key false s with
      | Return content _ =>
          match decode_utf8 content with
          | inr text => Some text
          | inl _ => None
          end
      | Raise _ _ => None
      end
  | inl _ => None
  end.

(** The record of [gufe_key] holds a key-reference to [key]. *)
Definition references (prefix : string) (s : S) (gufe_key key : string) : Prop :=
  exists text, record_text prefix s gufe_key = Some text /\
               key ∈ regex.findall text.

(** [key] is referenced from [root], directly or through other
    records. *)
Definition reachable (prefix : string) (s : S) (root key : string) : Prop :=
  rtc (references prefix s) root key.

(** A step of the reconstruction of [gufe_key] that raises [e]: forming
    the storage key, reading, decoding, parsing, or rebuilding the
    object. *)
Definition fails_at (prefix : string) (s : S) (gufe_key : string) (e : exn)
  : Prop :=
  _gufe_key_to_storage_key prefix gufe_key = inl e \/
  (exists storage_key s',
      _gufe_key_to_storage_key prefix gufe_key = inr storage_key /\
      rs_load_stream storage_key false s = Raise e s') \/
  (exists storage_key content s',
      _gufe_key_to_storage_key prefix gufe_key = inr storage_key /\
      rs_load_stream storage_key false s = Return content s' /\
      (decode_utf8 content = inl e \/
       exists text, decode_utf8 content = inr text /\
         (json_loads text = inl e \/
          exists dct r r', json_loads text = inr dct /\
                           key_decode_dependencies dct r = Raise e r'))).

End LoadVocabulary.

Section SampleWorlds.
#[local] Existing Instance sample_process.
#[local] Existing Instance sample_tokenization.

(** The sample graph stored through a fresh client over an in-memory
    backend. *)
Definition world_with_graph : world facade nat :=
  state_after (store_transformation sample_T empty_world).

(** The same, with the record of the shared extension deleted again. *)
Definition world_missing_extension : world facade nat :=
  state_after (ResultClient_delete "setup/Extension/0e.json" world_with_graph).

(** Records written with [store_bytes]: the record of [Root-00] refers
    to [Loop-aa] and to [Gone-0e]; the record of [Loop-aa] refers to
    itself; nothing is stored for [Gone-0e]. *)
Definition world_with_cycle_beside_gap : world facade nat :=
  state_after
    (store_bytes "setup/Root/00.json"
       (encode_utf8 ("[" +:+ key_reference "Loop-aa" +:+ ", "
                         +:+ key_reference "Gone-0e" +:+ "]"))
       (state_after
          (store_bytes "setup/Loop/aa.json"
             (encode_utf8 (key_reference "Loop-aa")) empty_world))).

End SampleWorlds.

(** ** Further vocabulary *)

(** The disk a [FileStorage] writes to; [None] for the in-memory backend. *)
Definition disk_of (w : runtime) : option (gmap string inode) :=
  match storage w with
  | FileStorage _ disk => Some disk
  | MemoryStorage _ => None
  end.

(** A path with a [..] step, which the system resolves against the
    directories on the disk. *)
Definition has_parent_step (p : PurePath) : bool :=
  existsb (String.eqb "..") (parts p).

(** Two locations name different places of the backend. In memory:
    different keys of the dictionary. On a disk without symbolic links:
    the two paths under the root have the same anchor (both relative to
    the working directory, or both from the same root), neither holds a
    [..] step, and their texts differ. Paths that differ as texts only
    through a [..] step, or one relative and one absolute, can name one
    file and are not counted as different. *)
Definition different_place (st : ExternalStorage) (a b : string) : Prop :=
  match st with
  | FileStorage root_dir _ =>
      has_parent_step (_as_path root_dir a) = false /\
      has_parent_step (_as_path root_dir b) = false /\
      anchor (_as_path root_dir a) = anchor (_as_path root_dir b) /\
      str (_as_path root_dir a) <> str (_as_path root_dir b)
  | MemoryStorage _ => a <> b
  end.

(** The number of occurrences of [c] in [s]. *)
Fixpoint count_char (c : ascii) (s : string) : nat :=
  match s with
  | EmptyString => O
  | String a s' => ((if Ascii.eqb a c then 1 else 0) + count_char c s')%nat
  end.

(** [isinstance(other, self.__class__)] among the four container classes,
    none of which derives from another. *)
Definition isinstance_of_class (other self : container) : bool :=
  match self, other with
  | ResultClient _ _, ResultClient _ _
  | TransformationResult _ _ _ _, TransformationResult _ _ _ _
  | CloneResult _ _ _ _, CloneResult _ _ _ _
  | ExtensionResult _ _ _ _, ExtensionResult _ _ _ _ => true
  | _, _ => false
  end.

(** [_ResultContainer.__eq__] *)
Definition __eq__ (self other : container) : bool :=
  isinstance_of_class other self && String.eqb (path self) (path other).

(** The object a node was made for: the attribute [transformation],
    [clone] or [extension] set in [__init__]. A [ResultClient] has none. *)
Definition made_for (c : container) : option pyobj :=
  match c with
  | ResultClient _ _ => None
  | TransformationResult _ _ _ x | CloneResult _ _ _ x
  | ExtensionResult _ _ _ x => Some x
  end.

Section FurtherResultClientVocabulary.
Context {S Json Registry Decoded : Type}.
Context `{!Interpreter, !ResultServer S, !Tokenization Json Registry Decoded}.

(** The instance [_load_next_level] builds for a container of one of the
    three upper levels, given the identity it gets. (An
    [ExtensionResult] builds none; the last case is never used.) *)
Definition new_child (self : container) (item : pyobj) (id : nat) : container :=
  match self with
  | ResultClient _ _ =>
      TransformationResult id self (_ResultContainer_to_path_component item) item
  | TransformationResult _ _ _ _ =>
      CloneResult id self (CloneResult_to_path_component item) item
  | CloneResult _ _ _ _ | ExtensionResult _ _ _ _ =>
      ExtensionResult id self
        (ExtensionResult_to_path_component (PyStr (py_str item))) item
  end.

(** The reconstruction of [gufe_key] returns at recursion depth [depth],
    from some world whose result server is [s]. *)
Definition returns_at (prefix : string) (s : S) (depth : nat) (gufe_key : string)
  : Prop :=
  exists (w : world S Registry) (v : Decoded) (w' : world S Registry),
    result_server w = s /\
    recursive_build_object_cache depth prefix gufe_key w = Return v w'.

End FurtherResultClientVocabulary.

Section FurtherSampleWorlds.
#[local] Existing Instance sample_process.
#[local] Existing Instance sample_tokenization.

(** Two records that refer to each other, written with [store_bytes]
    through a fresh client over an in-memory backend. *)
Definition world_with_cycle : world facade nat :=
  state_after
    (store_bytes "setup/Loop/aa.json" (encode_utf8 (key_reference "Loop-bb"))
       (state_after
          (store_bytes "setup/Loop/bb.json" (encode_utf8 (key_reference "Loop-aa"))
             empty_world))).

(** A client whose root has been indexed once: the node for [t1]. *)
Definition sample_transformation_node : container :=
  TransformationResult 1 sample_root "t1" (PyStr "t1").

Definition world_with_transformation_node : world facade nat :=
  state_after (__getitem__ sample_root (PyStr "t1")
                 (world_with_root (empty_facade (MemoryStorage ∅)))).

End FurtherSampleWorlds.

(** * Properties *)

(** ** The MD5 implementation against known digests *)

Example md5_empty :
  hashlib.md5_hexdigest [] = "d41d8cd98f00b204e9800998ecf8427e".
Proof. vm_compute. reflexivity. Qed.

Example md5_abc :
  hashlib.md5_hexdigest (encode_ascii "abc") = "900150983cd24fb0d6963f7d28e17f72".
Proof. vm_compute. reflexivity. Qed.

Example md5_two_blocks :
  hashlib.md5_hexdigest (repeat Byte.x61 70) = "0f5c6c4e740bfcc08c3c26ccb2673d46".
Proof. vm_compute. reflexivity. Qed.

(** ** External storage *)

Ltac run := unfold bind, get_state, put_state, ret, raise, lift; simpl.

Lemma _load_stream_keeps_state location w o :
  _load_stream location w = o -> state_after o = w.
Proof.
  intros <-. unfold _load_stream. run.
  destruct (storage w); [destruct (open_rb _ _) | destruct (_ !! _)]; reflexivity.
Qed.

Lemma get_metadata_of_content location w content :
  _load_stream location w = Return content w ->
  get_metadata location w = Return (hashlib.md5_hexdigest content) w.
Proof. intros H. unfold get_metadata, _get_hexdigest. run. rewrite H. reflexivity. Qed.

Lemma validate_mismatch w location metadata content :
  _load_stream location w = Return content w ->
  hashlib.md5_hexdigest content <> metadata ->
  validate location metadata w =
    if allow_changed w
    then Return tt (with_warning w (mismatch_message location))
    else Raise (ChangedExternalResourceError
                  (mismatch_message location
                     +:+ " To allow this, set ExternalStorage.allow_changed = True")) w.
Proof.
  intros Hload Hne. unfold validate.
  unfold bind at 1. rewrite (get_metadata_of_content _ _ _ Hload).
  destruct (String.eqb_spec (hashlib.md5_hexdigest content) metadata) as [|_];
    [contradiction|].
  run. destruct (allow_changed w); reflexivity.
Qed.

Lemma validate_match w location content :
  _load_stream location w = Return content w ->
  validate location (hashlib.md5_hexdigest content) w = Return tt w.
Proof.
  intros Hload. unfold validate.
  unfold bind at 1. rewrite (get_metadata_of_content _ _ _ Hload).
  rewrite String.eqb_refl. reflexivity.
Qed.

Lemma _load_stream_with_warning w location msg content :
  _load_stream location w = Return content w ->
  _load_stream location (with_warning w msg) = Return content (with_warning w msg).
Proof.
  unfold _load_stream. run.
  destruct (storage w); [destruct (open_rb _ _) | destruct (_ !! _)];
    intros H; inversion H; subst; reflexivity.
Qed.

(** C2. A validated read of a location whose content no longer has the
    expected digest: with [allow_changed] off, which is its default,
    [validate], [load_stream] and [get_filename] raise
    [ChangedExternalResourceError] and leave the state as it was; with
    [allow_changed] on, each of them returns ([load_stream] the content
    that is there now) after issuing exactly one warning. *)
Theorem validated_read_of_changed_content
    (w : runtime) (location metadata : string) (content : bytes) :
  _load_stream location w = Return content w ->
  hashlib.md5_hexdigest content <> metadata ->
  default_allow_changed = false /\
  (allow_changed w = false ->
     exists msg,
       validate location metadata w = Raise (ChangedExternalResourceError msg) w /\
       load_stream location metadata w = Raise (ChangedExternalResourceError msg) w /\
       get_filename location metadata w = Raise (ChangedExternalResourceError msg) w) /\
  (allow_changed w = true ->
     let w' := with_warning w (mismatch_message location) in
     validate location metadata w = Return tt w' /\
     load_stream location metadata w = Return content w' /\
     exists filename, get_filename location metadata w = Return filename w').
Proof.
  intros Hload Hne. pose proof (validate_mismatch w location metadata content Hload Hne) as Hv.
  split; [reflexivity|]. split; intros Hflag; rewrite Hflag in Hv.
  - eexists. split; [exact Hv|].
    unfold load_stream, get_filename, bind. rewrite Hv. split; reflexivity.
  - simpl. split; [exact Hv|]. split.
    + unfold load_stream, bind. rewrite Hv.
      apply _load_stream_with_warning, Hload.
    + unfold get_filename, bind. rewrite Hv. unfold _get_filename. run.
      destruct (storage w); eexists; reflexivity.
Qed.

Lemma validated_read_of_changed_content_witness :
  let w := {| storage := FileStorage (Path "/data")
                           {[ "/data/results/a" := RegularFile (encode_ascii "x") ]};
              allow_changed := true; warned := [] |} in
  let metadata := hashlib.md5_hexdigest (encode_ascii "y") in
  default_allow_changed = false /\
  (allow_changed w = false ->
     exists msg,
       validate "results/a" metadata w = Raise (ChangedExternalResourceError msg) w /\
       load_stream "results/a" metadata w = Raise (ChangedExternalResourceError msg) w /\
       get_filename "results/a" metadata w = Raise (ChangedExternalResourceError msg) w) /\
  (allow_changed w = true ->
     let w' := with_warning w (mismatch_message "results/a") in
     validate "results/a" metadata w = Return tt w' /\
     load_stream "results/a" metadata w = Return (encode_ascii "x") w' /\
     exists filename, get_filename "results/a" metadata w = Return filename w').
Proof.
  apply (validated_read_of_changed_content
           {| storage := FileStorage (Path "/data")
                           {[ "/data/results/a" := RegularFile (encode_ascii "x") ]};
              allow_changed := true; warned := [] |}
           "results/a" (hashlib.md5_hexdigest (encode_ascii "y")) (encode_ascii "x")).
  - vm_compute. reflexivity.
  - vm_compute. discriminate.
Defined.

(** *** Round trip *)

Lemma memory_store_returns _data flag ws location byte_data :
  store location byte_data
    {| storage := MemoryStorage _data; allow_changed := flag; warned := ws |} =
  Return (location, hashlib.md5_hexdigest byte_data)
    {| storage := MemoryStorage (<[location := byte_data]> _data);
       allow_changed := flag; warned := ws |}.
Proof.
  unfold store, _store, set_storage, get_metadata, _get_hexdigest, _load_stream.
  run. rewrite lookup_insert_eq. reflexivity.
Qed.

(** The in-memory backend: whatever the location and the payload, [store]
    returns, and [load_stream] on what it returned gives the payload back,
    with no warning and no change of state. *)
Lemma memory_round_trip _data flag ws location (P : bytes) :
  exists loc metadata w',
    store location P
      {| storage := MemoryStorage _data; allow_changed := flag; warned := ws |}
    = Return (loc, metadata) w' /\
    load_stream loc metadata w' = Return P w'.
Proof.
  eexists _, _, _. split; [apply memory_store_returns|].
  unfold load_stream, bind.
  rewrite validate_match with (content := P).
  all: unfold _load_stream; run; rewrite lookup_insert_eq; reflexivity.
Qed.

(** C1. With a [FileStorage] whose root directory is the relative path
    [data], on an empty disk, [store] writes the file [data/a.txt] and then
    raises [MissingExternalResourceError]: it asks for the metadata of
    [str(path)], which [_as_path] puts under the root a second time, at
    [data/data/a.txt]. No location and metadata are returned to load
    with. *)
Theorem file_store_under_relative_root_raises :
  let w := fresh_runtime (FileStorage (Path "data") ∅) in
  let o := store "a.txt" (encode_ascii "x") w in
  raised o = Some (MissingExternalResourceError
                     "[Errno 2] No such file or directory: 'data/data/a.txt'") /\
  returned o = None /\
  match storage (state_after o) with
  | FileStorage _ disk => disk !! "data/a.txt" = Some (RegularFile (encode_ascii "x"))
  | MemoryStorage _ => False
  end.
Proof. vm_compute. repeat split; reflexivity. Qed.

(** *** Missing locations *)

Lemma memory_read_missing _data flag ws location metadata :
  _data !! location = None ->
  let w := {| storage := MemoryStorage _data; allow_changed := flag; warned := ws |} in
  get_metadata location w = Raise (KeyError location) w /\
  load_stream location metadata w = Raise (KeyError location) w.
Proof.
  intros Hnone w. unfold load_stream, validate, get_metadata, _get_hexdigest, _load_stream.
  run. rewrite Hnone. split; reflexivity.
Qed.

Lemma memory_delete_missing _data flag ws location :
  _data !! location = None ->
  let w := {| storage := MemoryStorage _data; allow_changed := flag; warned := ws |} in
  exists msg, delete_at location w = Raise (MissingExternalResourceError msg) w.
Proof.
  intros Hnone w. unfold delete_at, _delete. run. rewrite Hnone. eexists; reflexivity.
Qed.

(** The file backend, at a location where the disk has nothing: the three
    operations raise [MissingExternalResourceError]. *)
Lemma file_missing root_dir disk flag ws location metadata :
  stat disk (_as_path root_dir location) = None ->
  let w := {| storage := FileStorage root_dir disk; allow_changed := flag;
              warned := ws |} in
  (exists msg, get_metadata location w = Raise (MissingExternalResourceError msg) w) /\
  (exists msg, load_stream location metadata w = Raise (MissingExternalResourceError msg) w) /\
  (exists msg, delete_at location w = Raise (MissingExternalResourceError msg) w).
Proof.
  intros Hnone w.
  unfold load_stream, validate, get_metadata, _get_hexdigest, _load_stream,
    delete_at, _delete, exists_at, _exists, open_rb, exists_.
  run. rewrite Hnone. repeat split; eexists; reflexivity.
Qed.

(** C5. On an empty [MemoryStorage], [get_metadata] and [load_stream] of a
    location raise [KeyError], which is not a
    [MissingExternalResourceError]: [MemoryStorage._load_stream] indexes
    [_data] with no handler, unlike [MemoryStorage._delete] and
    [FileStorage._load_stream]. Only [delete] raises the missing-resource
    error. *)
Theorem memory_read_of_missing_location_raises_KeyError :
  let w := fresh_runtime (MemoryStorage ∅) in
  get_metadata "missing" w = Raise (KeyError "missing") w /\
  load_stream "missing" "d41d8cd98f00b204e9800998ecf8427e" w
    = Raise (KeyError "missing") w /\
  is_missing (KeyError "missing") = false /\
  option_map is_missing (raised (delete_at "missing" w)) = Some true.
Proof. vm_compute. repeat split; reflexivity. Qed.

(** *** Paths written by pathlib are read back as they are *)

Lemma split_on_pieces sep s :
  Forall (fun p => has_char sep p = false) (split_on sep s).
Proof.
  induction s as [|c s IH]; simpl; [repeat constructor|].
  destruct (Ascii.eqb_spec c sep) as [->|Hne].
  - constructor; [reflexivity|exact IH].
  - destruct (split_on sep s) as [|h t].
    + constructor; [|constructor]. simpl.
      destruct (Ascii.eqb_spec c sep); [contradiction|reflexivity].
    + inversion IH as [|? ? Hh Ht]; subst. constructor; [|exact Ht]. simpl.
      destruct (Ascii.eqb_spec c sep); [contradiction|exact Hh].
Qed.

Lemma split_on_no_sep sep s :
  has_char sep s = false -> split_on sep s = [s].
Proof.
  induction s as [|c s IH]; simpl; [reflexivity|].
  destruct (Ascii.eqb c sep); [discriminate|]. simpl.
  intros Hs. rewrite (IH Hs). reflexivity.
Qed.

Lemma split_on_app_sep sep a t :
  has_char sep a = false ->
  split_on sep (a +:+ String sep t) = a :: split_on sep t.
Proof.
  induction a as [|c a IH]; simpl.
  - intros _. rewrite Ascii.eqb_refl. reflexivity.
  - destruct (Ascii.eqb c sep); [discriminate|]. simpl.
    intros Ha. rewrite (IH Ha). reflexivity.
Qed.

Lemma Path_wf s : wf_path (Path s).
Proof.
  split.
  - unfold Path, parse_anchor. simpl.
    destruct s as [|c1 [|c2 [|c3 s]]]; auto;
      repeat match goal with
             | |- context [Ascii.eqb ?a ?b] => destruct (Ascii.eqb a b)
             end; simpl; auto.
  - unfold Path. simpl. apply Forall_forall. intros p Hp.
    apply list_elem_of_In, filter_In in Hp as [Hp Hc].
    split; [|exact Hc].
    pose proof (split_on_pieces slash s) as Hpieces.
    rewrite Forall_forall in Hpieces. apply Hpieces, list_elem_of_In, Hp.
Qed.

Lemma truediv_wf p q : wf_path p -> wf_path q -> wf_path (truediv p q).
Proof.
  intros [Hap Hpp] [Haq Hpq]. unfold truediv.
  destruct (String.eqb (anchor q) ""); [|split; assumption].
  split; [exact Hap|]. simpl. apply Forall_app. split; assumption.
Qed.

Lemma filter_split_join ps :
  Forall is_part ps ->
  List.filter is_component (split_on slash (join "/" ps)) = ps.
Proof.
  induction ps as [|p ps IH]; intros Hps; [reflexivity|].
  inversion Hps as [|? ? [Hslash Hcomp] Hrest]; subst.
  destruct ps as [|q ps].
  - simpl. rewrite (split_on_no_sep _ _ Hslash). simpl. rewrite Hcomp. reflexivity.
  - change (join "/" (p :: q :: ps)) with (p +:+ String slash (join "/" (q :: ps))).
    rewrite (split_on_app_sep _ _ _ Hslash). simpl List.filter at 1.
    rewrite Hcomp. f_equal. apply IH, Hrest.
Qed.

Lemma join_parts_head ps :
  Forall is_part ps ->
  join "/" ps = "" \/
  exists c rest, join "/" ps = String c rest /\ Ascii.eqb c slash = false.
Proof.
  intros Hps. destruct ps as [|p ps]; [left; reflexivity|right].
  inversion Hps as [|? ? [Hslash Hcomp] _]; subst.
  destruct p as [|c p]; [discriminate|].
  simpl in Hslash. apply orb_false_iff in Hslash as [Hc _].
  destruct ps; simpl; eauto.
Qed.

(** An anchored path survives [str] followed by [Path]. *)
Lemma Path_str p : wf_path p -> anchor p <> "" -> Path (str p) = p.
Proof.
  destruct p as [a ps]. intros [Ha Hps] Hanch. simpl in *.
  pose proof (filter_split_join ps Hps) as Hparts.
  destruct Ha as [->|[->| ->]]; [contradiction| |].
  - unfold str, Path. simpl anchor. simpl parts. cbv iota. f_equal.
    + destruct (join_parts_head ps Hps) as [->|(c & rest & -> & Hc)]; [reflexivity|].
      simpl. rewrite Hc. destruct rest; reflexivity.
    + simpl. exact Hparts.
  - unfold str, Path. simpl anchor. simpl parts. cbv iota. f_equal.
    + destruct (join_parts_head ps Hps) as [->|(c & rest & -> & Hc)]; [reflexivity|].
      simpl. rewrite Hc. reflexivity.
    + simpl. exact Hparts.
Qed.

Lemma stat_of_components disk p : parts p <> [] -> stat disk p = disk !! str p.
Proof. unfold stat. destruct (parts p); [contradiction|reflexivity]. Qed.

Lemma open_wb_written disk p data disk' :
  open_wb disk p data = inr disk' ->
  parts p <> [] /\ disk' = <[str p := RegularFile data]> disk.
Proof.
  unfold open_wb, stat. destruct (parts p) eqn:Hparts; [discriminate|].
  intros H. split; [discriminate|].
  destruct (disk !! str p) as [[]|]; try discriminate;
    destruct (parts (parent p)); try discriminate;
    try (destruct (disk !! str (parent p)) as [[]|]; try discriminate);
    injection H as <-; reflexivity.
Qed.

Lemma _as_path_anchored root_dir location :
  anchor root_dir <> "" -> anchor (_as_path root_dir location) <> "".
Proof.
  intros Hroot. unfold _as_path, truediv.
  destruct (String.eqb_spec (anchor (Path location)) "") as [Heq|Hne];
    [exact Hroot|exact Hne].
Qed.

Lemma truediv_anchored p q : anchor q <> "" -> truediv p q = q.
Proof.
  intros Hq. unfold truediv.
  destruct (String.eqb_spec (anchor q) ""); [contradiction|reflexivity].
Qed.

(** X10. The file backend under an absolute root: whenever [store]
    returns, [load_stream] on what it returned gives the payload back. *)
Lemma file_round_trip_absolute_root root_dir disk flag ws location (P : bytes)
    loc metadata w' :
  wf_path root_dir -> anchor root_dir <> "" ->
  store location P
    {| storage := FileStorage root_dir disk; allow_changed := flag; warned := ws |}
  = Return (loc, metadata) w' ->
  load_stream loc metadata w' = Return P w'.
Proof.
  intros Hwf Hanchor. unfold store, _store, set_storage.
  unfold bind at 1, get_state. cbn [storage].
  set (path := _as_path root_dir location).
  assert (Hpath : _as_path root_dir (str path) = path).
  { pose proof (_as_path_anchored root_dir location Hanchor) as Ha. fold path in Ha.
    unfold _as_path at 1. rewrite Path_str; [apply truediv_anchored, Ha| |exact Ha].
    apply truediv_wf; [exact Hwf|apply Path_wf]. }
  unfold bind at 1, lift at 1.
  destruct (mkdir_parents disk (parent path)) as [|disk1]; [discriminate|].
  unfold bind at 1. cbn [allow_changed warned storage].
  unfold bind at 1, lift at 1.
  destruct (open_wb disk1 path P) as [|disk2] eqn:Hwrite; [discriminate|].
  destruct (open_wb_written _ _ _ _ Hwrite) as (Hparts & ->).
  unfold bind at 1. cbn [allow_changed warned storage].
  set (w2 := {| storage := FileStorage root_dir (<[str path := RegularFile P]> disk1);
                allow_changed := flag; warned := ws |}).
  assert (Hread : _load_stream (str path) w2 = Return P w2).
  { unfold _load_stream, bind, get_state. cbn [storage w2]. rewrite Hpath.
    unfold open_rb. rewrite (stat_of_components _ _ Hparts). rewrite lookup_insert_eq.
    reflexivity. }
  unfold bind at 1. rewrite (get_metadata_of_content _ _ _ Hread).
  unfold ret. intros Hret. injection Hret as <- <- <-.
  unfold load_stream, bind. rewrite (validate_match _ _ _ Hread). exact Hread.
Qed.

(** ** The scan for key references *)

Lemma strip_prefix_length p s r :
  regex.strip_prefix p s = Some r ->
  String.length s = (String.length p + String.length r)%nat.
Proof.
  revert s. induction p as [|a p IH]; intros s; simpl.
  - intros H. injection H as <-. reflexivity.
  - destruct s as [|b s]; [discriminate|]. destruct (Ascii.eqb a b); [|discriminate].
    intros H. simpl. rewrite (IH _ H). reflexivity.
Qed.

Lemma span_length P s :
  String.length s
  = (String.length (fst (regex.span P s)) + String.length (snd (regex.span P s)))%nat.
Proof.
  induction s as [|c s IH]; simpl; [reflexivity|].
  destruct (P c); [|reflexivity].
  destruct (regex.span P s) as [a b]. simpl in *. rewrite IH. reflexivity.
Qed.

(** A match consumes at least one character. *)
Lemma match_here_shorter s token rest :
  regex.match_here s = Some (token, rest) ->
  (String.length rest < String.length s)%nat.
Proof.
  unfold regex.match_here.
  destruct (regex.strip_prefix regex.marker s) as [r0|] eqn:Hstrip; [|discriminate].
  apply strip_prefix_length in Hstrip.
  pose proof (span_length regex.is_word r0) as H1.
  destruct (regex.span regex.is_word r0) as [cls r1]. simpl in H1.
  destruct cls as [|c cls]; [discriminate|].
  destruct r1 as [|dash r2]; [discriminate|].
  destruct (Ascii.eqb dash "-"); [|discriminate].
  pose proof (span_length regex.is_hex r2) as H2.
  destruct (regex.span regex.is_hex r2) as [tok r3]. simpl in H2.
  destruct tok as [|t tok]; [discriminate|].
  destruct r3 as [|q r4]; [discriminate|].
  destruct (Ascii.eqb q regex.dquote); [|discriminate].
  intros H. injection H as _ <-. simpl in *. lia.
Qed.

(** Any bound above the length of the text gives the same matches: the
    bound chosen by [findall] never cuts the scan short. *)
Lemma findall_from_enough n m s :
  (String.length s < n)%nat -> (String.length s < m)%nat ->
  regex.findall_from n s = regex.findall_from m s.
Proof.
  revert m s. induction n as [|n IH]; intros m s Hn Hm; [lia|].
  destruct m as [|m]; [lia|]. simpl.
  destruct (regex.match_here s) as [[token rest]|] eqn:Hmatch.
  - apply match_here_shorter in Hmatch. f_equal. apply IH; lia.
  - destruct s as [|c s]; [reflexivity|]. simpl in *. apply IH; lia.
Qed.

Example findall_finds_both_references :
  regex.findall (keyed_json_of sample_T) = ["Clone-c1"; "Clone-c2"].
Proof. vm_compute. reflexivity. Qed.

(** ** The result hierarchy *)

Section ResultHierarchy.
Context {S Json Registry Decoded : Type}.
Context `{!Interpreter, !ResultServer S, !Tokenization Json Registry Decoded}.

Local Abbreviation world := (world S Registry).

Implicit Types (w : world) (self node : container) (item : pyobj).

Lemma getitem_in_server self item w :
  is_extension self = false ->
  in_result_server item (result_server w) = true ->
  __getitem__ self item w
  = (content ← server_load_stream item; ret (Stream content)) w.
Proof.
  intros Hext Hin.
  destruct self; try discriminate; unfold __getitem__, _ResultContainer_getitem;
    unfold bind at 1, get_state; rewrite Hin; reflexivity.
Qed.

Lemma base_getitem_hit self item w v :
  in_result_server item (result_server w) = false ->
  cache_of self w !! _to_path_component self item = Some v ->
  _ResultContainer_getitem self item w = Return v w.
Proof.
  intros Hin Hhit. unfold cache_of in Hhit.
  cbv [_ResultContainer_getitem bind get_state get_cache ret].
  rewrite Hin. cbv beta iota. rewrite Hhit. cbv beta iota. rewrite Hhit.
  reflexivity.
Qed.

Lemma getitem_hit self item w v :
  is_extension self = false ->
  in_result_server item (result_server w) = false ->
  cache_of self w !! _to_path_component self item = Some v ->
  __getitem__ self item w = Return v w.
Proof.
  intros Hext Hin Hhit.
  destruct self; try discriminate; apply base_getitem_hit; assumption.
Qed.

Lemma base_getitem_miss self item w n :
  in_result_server item (result_server w) = false ->
  cache_of self w !! _to_path_component self item = None ->
  _load_next_level self item w
  = Return (Child n)
      {| result_server := result_server w;
         caches := <[next_id w := ∅]> (caches w);
         next_id := Datatypes.S (next_id w);
         registry := registry w;
         store_calls := store_calls w |} ->
  _ResultContainer_getitem self item w
  = Return (Child n) (world_after_miss self (_to_path_component self item) n w).
Proof.
  intros Hin Hmiss Hnext. unfold cache_of in Hmiss.
  cbv [_ResultContainer_getitem bind get_state get_cache ret].
  rewrite Hin. cbv beta iota. rewrite Hmiss. cbv beta iota. rewrite Hnext.
  cbv [set_cache]. cbn [caches result_server next_id registry store_calls].
  rewrite lookup_insert_eq. cbv [default from_option id].
  rewrite lookup_insert_eq. reflexivity.
Qed.

Lemma getitem_miss self item w :
  is_extension self = false ->
  in_result_server item (result_server w) = false ->
  cache_of self w !! _to_path_component self item = None ->
  exists n,
    id_of n = next_id w /\ parent_of n = self /\ is_root n = false /\
    __getitem__ self item w
    = Return (Child n) (world_after_miss self (_to_path_component self item) n w).
Proof.
  intros Hext Hin Hmiss.
  destruct self; try discriminate; eexists;
    (split; [|split; [|split; [|apply base_getitem_miss; [assumption..|reflexivity]]]]);
    reflexivity.
Qed.

Lemma on_server_keeps_caches {A} (m : call S A) w :
  caches (state_after (on_server m w)) = caches w /\
  next_id (state_after (on_server m w)) = next_id w.
Proof. unfold on_server. destruct (m (result_server w)); split; reflexivity. Qed.

Lemma bind_on_server_keeps_caches {A B} (m : call S A) (f : A -> B) w :
  caches (state_after ((x ← on_server m; ret (f x)) w)) = caches w /\
  next_id (state_after ((x ← on_server m; ret (f x)) w)) = next_id w.
Proof.
  pose proof (on_server_keeps_caches m w) as Hs. unfold bind, ret.
  destruct (on_server m w); exact Hs.
Qed.

(** What one indexing operation can do to the caches: nothing, or
    create one child under a key that was free. *)
Lemma getitem_changes node item w :
  let w' := state_after (__getitem__ node item w) in
  (caches w' = caches w /\ next_id w' = next_id w) \/
  (exists n h, id_of n = next_id w /\ cache_of node w !! h = None /\
               w' = world_after_miss node h n w).
Proof.
  assert (Hbase : is_extension node = false ->
    let w' := state_after (__getitem__ node item w) in
    (caches w' = caches w /\ next_id w' = next_id w) \/
    (exists n h, id_of n = next_id w /\ cache_of node w !! h = None /\
                 w' = world_after_miss node h n w)).
  { intros Hext.
    destruct (in_result_server item (result_server w)) eqn:Hin.
    - left. rewrite (getitem_in_server _ _ _ Hext Hin).
      unfold server_load_stream. destruct item;
        try (split; reflexivity). apply bind_on_server_keeps_caches.
    - destruct (cache_of node w !! _to_path_component node item) as [v|] eqn:Hc.
      + left. rewrite (getitem_hit _ _ _ _ Hext Hin Hc). split; reflexivity.
      + right. destruct (getitem_miss _ _ _ Hext Hin Hc) as (n & Hid & _ & _ & Hrun).
        exists n, (_to_path_component node item). rewrite Hrun. auto. }
  destruct node; try (apply Hbase; reflexivity).
  left. unfold __getitem__, _load_next_level.
  destruct item; try (split; reflexivity). apply bind_on_server_keeps_caches.
Qed.

Lemma getitem_next_id node item w :
  (next_id w <= next_id (state_after (__getitem__ node item w)))%nat.
Proof.
  destruct (getitem_changes node item w) as [[_ ->]|(n & h & _ & _ & ->)];
    simpl; lia.
Qed.

(** An entry of the cache of a container created earlier survives any
    indexing operation, on any node. *)
Lemma getitem_keeps_entry node item w self h v :
  allocated self w ->
  cache_of self w !! h = Some v ->
  cache_of self (state_after (__getitem__ node item w)) !! h = Some v.
Proof.
  unfold allocated, cache_of. intros Halloc Hentry.
  destruct (getitem_changes node item w) as [[-> _]|(n & h' & Hid & Hfree & ->)];
    [assumption|].
  unfold cache_of in Hfree. simpl.
  destruct (decide (id_of node = id_of self)) as [Heq|Hne].
  - rewrite Heq, lookup_insert_eq. simpl.
    destruct (decide (h' = h)) as [->|Hh].
    + rewrite Heq in Hfree. congruence.
    + rewrite lookup_insert_ne by assumption.
      rewrite lookup_insert_ne by lia. assumption.
  - rewrite lookup_insert_ne by assumption.
    rewrite lookup_insert_ne by lia. assumption.
Qed.

Lemma getitem_keeps_allocated node item w self :
  allocated self w -> allocated self (state_after (__getitem__ node item w)).
Proof. unfold allocated. pose proof (getitem_next_id node item w). lia. Qed.

Lemma getitem_keeps_cached_allocated node item w :
  cached_allocated w ->
  cached_allocated (state_after (__getitem__ node item w)).
Proof.
  intros Hinv.
  destruct (getitem_changes node item w) as [[Hc Hn]|(n & h' & Hid & Hfree & ->)].
  - intros i cache h n Hi Hh. unfold allocated. rewrite Hn.
    rewrite Hc in Hi. exact (Hinv i cache h n Hi Hh).
  - intros i cache h m Hi Hh. unfold allocated. simpl in *.
    destruct (decide (id_of node = i)) as [<-|Hne].
    + rewrite lookup_insert_eq in Hi. injection Hi as <-.
      destruct (decide (h' = h)) as [->|Hh'].
      * rewrite lookup_insert_eq in Hh. injection Hh as <-. lia.
      * rewrite lookup_insert_ne in Hh by assumption.
        destruct (decide (next_id w = id_of node)) as [Heq|Hne].
        -- rewrite Heq, lookup_insert_eq in Hh. simpl in Hh.
           rewrite lookup_empty in Hh. discriminate.
        -- rewrite lookup_insert_ne in Hh by assumption.
           destruct (caches w !! id_of node) as [c|] eqn:Hc; simpl in Hh;
             [|rewrite lookup_empty in Hh; discriminate].
           pose proof (Hinv _ _ _ _ Hc Hh) as Ha. unfold allocated in Ha. lia.
    + rewrite lookup_insert_ne in Hi by assumption.
      destruct (decide (next_id w = i)) as [<-|Hne'].
      * rewrite lookup_insert_eq in Hi. injection Hi as <-.
        rewrite lookup_empty in Hh. discriminate.
      * rewrite lookup_insert_ne in Hi by assumption.
        pose proof (Hinv _ _ _ _ Hi Hh) as Ha. unfold allocated in Ha. lia.
Qed.

Lemma keeps_bind {A B} (m : call world A) (k : A -> call world B) :
  @keeps_containers S Registry _ m -> (forall a, @keeps_containers S Registry _ (k a)) ->
  @keeps_containers S Registry _ (bind m k).
Proof.
  intros Hm Hk w. unfold bind. specialize (Hm w).
  destruct (m w) as [a w1|e w1]; simpl in Hm; [|exact Hm].
  destruct (Hk a w1) as [Hc Hn]. destruct Hm as [Hc' Hn']. split; congruence.
Qed.

Lemma keeps_ret {A} (a : A) : @keeps_containers S Registry _ (ret a : call world A).
Proof. intros w. split; reflexivity. Qed.

Lemma keeps_raise {A} e : @keeps_containers S Registry _ (raise e : call world A).
Proof. intros w. split; reflexivity. Qed.

Lemma keeps_lift {A} (r : exn + A) : @keeps_containers S Registry _ (lift r : call world A).
Proof. intros w. unfold lift. destruct r; split; reflexivity. Qed.

Lemma keeps_get_state : @keeps_containers S Registry _ (get_state : call world world).
Proof. intros w. split; reflexivity. Qed.

Lemma keeps_on_server {A} (m : call S A) :
  @keeps_containers S Registry _ (on_server m : call world A).
Proof. intros w. apply on_server_keeps_caches. Qed.

Lemma keeps_on_registry {A} (m : call Registry A) :
  @keeps_containers S Registry _ (on_registry m : call world A).
Proof. intros w. unfold on_registry. destruct (m (registry w)); split; reflexivity. Qed.

Lemma keeps_for_each {A} (body : A -> call world unit) (l : list A) :
  (forall x, @keeps_containers S Registry _ (body x)) -> @keeps_containers S Registry _ (for_each body l).
Proof.
  intros Hbody. induction l as [|x l IH]; [apply keeps_ret|].
  simpl. apply keeps_bind; [apply Hbody|intros _; exact IH].
Qed.

Lemma keeps_store_bytes key data : @keeps_containers S Registry _ (store_bytes key data).
Proof.
  intros w. unfold store_bytes.
  exact (on_server_keeps_caches (rs_store_bytes key data) (logged key data w)).
Qed.

Lemma keeps_store_gufe_tokenizable prefix obj :
  @keeps_containers S Registry _ (_store_gufe_tokenizable prefix obj).
Proof.
  unfold _store_gufe_tokenizable, store_each. apply keeps_for_each. intros o.
  unfold store_if_unknown.
  apply keeps_bind; [apply keeps_lift|]. intros key.
  apply keeps_bind; [apply keeps_get_state|]. intros w.
  destruct (negb _); [apply keeps_store_bytes|apply keeps_ret].
Qed.

Lemma keeps_recursive_build depth prefix gufe_key :
  @keeps_containers S Registry _ (recursive_build_object_cache depth prefix gufe_key).
Proof.
  revert gufe_key. induction depth as [|depth IH]; intros gufe_key;
    [apply keeps_raise|].
  cbn [recursive_build_object_cache].
  apply keeps_bind; [apply keeps_lift|]. intros storage_key.
  apply keeps_bind; [apply keeps_on_server|]. intros content.
  apply keeps_bind; [apply keeps_lift|]. intros text.
  apply keeps_bind; [apply keeps_lift|]. intros dct.
  apply keeps_bind; [|intros _; apply keeps_on_registry].
  apply keeps_for_each. intros key.
  apply keeps_bind; [apply IH|intros _; apply keeps_ret].
Qed.

(** An entry of the cache of a container created earlier survives every
    operation. *)
Lemma perform_keeps_entry op w self h v :
  allocated self w ->
  cache_of self w !! h = Some v ->
  allocated self (perform op w) /\ cache_of self (perform op w) !! h = Some v.
Proof.
  intros Ha Hc.
  assert (Hkeep : forall A (m : call world A), @keeps_containers S Registry _ m ->
             allocated self (state_after (m w)) /\
             cache_of self (state_after (m w)) !! h = Some v).
  { intros A m Hm. destruct (Hm w) as [Hcaches Hnext].
    unfold allocated, cache_of in *. rewrite Hcaches, Hnext. auto. }
  destruct op; simpl.
  - split; [apply getitem_keeps_allocated, Ha|apply getitem_keeps_entry; assumption].
  - split; [apply getitem_keeps_allocated, Ha|apply getitem_keeps_entry; assumption].
  - apply Hkeep, keeps_store_gufe_tokenizable.
  - apply Hkeep, keeps_recursive_build.
  - apply Hkeep, keeps_on_server.
  - apply Hkeep, keeps_on_server.
Qed.

Lemma after_operations_keeps_entry ops w self h v :
  allocated self w ->
  cache_of self w !! h = Some v ->
  cache_of self (after_operations ops w) !! h = Some v.
Proof.
  revert w. induction ops as [|op ops IH]; intros w Ha Hc; [exact Hc|].
  simpl. destruct (perform_keeps_entry op w self h v Ha Hc) as [Ha' Hc'].
  apply IH; assumption.
Qed.

(** Indexing that gives a container went through the cache: the item
    is not a location of the result server, the server is untouched, and
    the container sits in the cache of [self] afterwards. *)
Lemma getitem_child_inv self item w n w1 :
  __getitem__ self item w = Return (Child n) w1 ->
  is_extension self = false /\
  in_result_server item (result_server w) = false /\
  result_server w1 = result_server w /\
  cache_of self w1 !! _to_path_component self item = Some (Child n) /\
  (w1 = w \/
   (id_of n = next_id w /\ next_id w1 = Datatypes.S (next_id w))).
Proof.
  intros Hrun.
  assert (Hstream : forall (m : call world bytes) v w',
             (content ← m; ret (Stream content)) w = Return v w' ->
             v <> Child n).
  { intros m v w'. unfold bind, ret. destruct (m w); intros Hm; inversion Hm.
    discriminate. }
  assert (Hext : is_extension self = false).
  { destruct self; try reflexivity. exfalso.
    unfold __getitem__, _load_next_level in Hrun. destruct item; try discriminate.
    exact (Hstream _ _ _ Hrun eq_refl). }
  split; [exact Hext|].
  destruct (in_result_server item (result_server w)) eqn:Hin.
  { exfalso. rewrite (getitem_in_server _ _ _ Hext Hin) in Hrun.
    exact (Hstream _ _ _ Hrun eq_refl). }
  split; [reflexivity|].
  destruct (cache_of self w !! _to_path_component self item) as [v|] eqn:Hc.
  - rewrite (getitem_hit _ _ _ _ Hext Hin Hc) in Hrun.
    inversion Hrun; subst. auto.
  - destruct (getitem_miss _ _ _ Hext Hin Hc) as (m & Hid & _ & _ & Hrun').
    rewrite Hrun' in Hrun. inversion Hrun; subst.
    split; [reflexivity|]. split; [|right; split; [exact Hid|reflexivity]].
    unfold cache_of. simpl. rewrite lookup_insert_eq. simpl.
    apply lookup_insert_eq.
Qed.

Lemma getitem_child_allocated self item w n w1 :
  cached_allocated w ->
  __getitem__ self item w = Return (Child n) w1 ->
  allocated n w1.
Proof.
  intros Hinv Hrun.
  destruct (getitem_child_inv _ _ _ _ _ Hrun) as (_ & _ & _ & Hc & [->|[Hid Hnext]]).
  - unfold cache_of in Hc.
    destruct (caches w !! id_of self) as [cache|] eqn:Hcache; simpl in Hc.
    + exact (Hinv _ _ _ _ Hcache Hc).
    + rewrite lookup_empty in Hc. discriminate.
  - unfold allocated. lia.
Qed.

(** C10. [node / item] is [node[item]]: the same result, the same
    exception and the same state afterwards, for every class of node. In
    particular on an [ExtensionResult] the operator goes to that class's
    own [__getitem__], which loads the named file under the node's
    path. *)
Theorem truediv_is_getitem self item w :
  __truediv__ self item w = __getitem__ self item w /\
  (is_extension self = true ->
   forall filename,
     __truediv__ self (PyStr filename) w
     = (content ← on_server (rs_load_stream (path self +:+ "/" +:+ filename) false);
        ret (Stream content)) w).
Proof.
  split; [reflexivity|].
  intros Hext filename. destruct self; try discriminate. reflexivity.
Qed.

(** C8, as the code has it. Indexing a container of one of the three
    upper levels with an item, when it gives a child container, gives the
    memoized one from then on: indexing again straight away returns the
    same instance and changes nothing (no new instance is created).
    After any series of other operations (indexing any node, storing or
    loading object graphs, reading, deleting) the instance is still the
    entry of the parent's cache under the item's key, and indexing
    returns it and changes nothing, as long as the item is not by then a
    location of the result server; if it is one, indexing returns what
    the server loads for it and not the child. *)
Theorem child_lookup_is_memoized self item w n w1 :
  is_extension self = false ->
  __getitem__ self item w = Return (Child n) w1 ->
  __getitem__ self item w1 = Return (Child n) w1 /\
  (allocated self w ->
   forall ops : list operation,
     let w2 := after_operations ops w1 in
     cache_of self w2 !! _to_path_component self item = Some (Child n) /\
     (in_result_server item (result_server w2) = false ->
      __getitem__ self item w2 = Return (Child n) w2) /\
     (in_result_server item (result_server w2) = true ->
      __getitem__ self item w2
      = (content ← server_load_stream item; ret (Stream content)) w2)).
Proof.
  intros Hext Hrun.
  destruct (getitem_child_inv _ _ _ _ _ Hrun) as (_ & Hin & Hsrv & Hc & _).
  split.
  - apply getitem_hit; [assumption| |assumption]. rewrite Hsrv. exact Hin.
  - intros Halloc ops w2.
    assert (Hentry : cache_of self w2 !! _to_path_component self item
                     = Some (Child n)).
    { apply after_operations_keeps_entry; [|exact Hc].
      pose proof (getitem_keeps_allocated self item w self Halloc) as Ha.
      rewrite Hrun in Ha. exact Ha. }
    split; [exact Hentry|]. split.
    + intros Hin2. apply getitem_hit; assumption.
    + intros Hin2. apply getitem_in_server; assumption.
Qed.

(** C6. The path of a [ResultClient] is the literal [transformations];
    the path of any other node is its parent's path, a slash and its own
    segment. And walking down three levels one step at a time, then
    indexing the same three items in one chain, arrives at the same
    node, so at the same path, without creating anything. *)
Theorem path_of_node_and_traversal :
  (forall id pc, path (ResultClient id pc) = "transformations") /\
  (forall node, is_root node = false ->
     path node = path (parent_of node) +:+ "/" +:+ path_component_of node) /\
  (forall w (root : container) t c e a b d w1 w2 w3,
     allocated root w -> cached_allocated w ->
     __getitem__ root t w = Return (Child a) w1 ->
     __getitem__ a c w1 = Return (Child b) w2 ->
     __getitem__ b e w2 = Return (Child d) w3 ->
     exists d', chained root t c e w3 = Return (Child d') w3 /\
                d' = d /\ path d' = path d).
Proof.
  split; [reflexivity|]. split; [intros [] Hroot; try discriminate; reflexivity|].
  intros w root t c e a b d w1 w2 w3 Hroot Hinv H1 H2 H3.
  exists d. split; [|split; reflexivity].
  destruct (getitem_child_inv _ _ _ _ _ H1) as (Hx1 & Hin1 & Hs1 & Hc1 & _).
  destruct (getitem_child_inv _ _ _ _ _ H2) as (Hx2 & Hin2 & Hs2 & Hc2 & _).
  destruct (getitem_child_inv _ _ _ _ _ H3) as (Hx3 & Hin3 & Hs3 & Hc3 & _).
  pose proof (getitem_child_allocated _ _ _ _ _ Hinv H1) as Ha1.
  pose proof (getitem_keeps_allocated root t w root Hroot) as Hr1.
  pose proof (getitem_keeps_cached_allocated root t w Hinv) as Hinv1.
  rewrite H1 in Hr1, Hinv1. simpl in Hr1, Hinv1.
  pose proof (getitem_keeps_allocated a c w1 root Hr1) as Hr2.
  pose proof (getitem_keeps_allocated a c w1 a Ha1) as Ha2.
  pose proof (getitem_keeps_entry a c w1 root _ _ Hr1 Hc1) as Hc1'.
  rewrite H2 in Hr2, Ha2, Hc1'. simpl in Hr2, Ha2, Hc1'.
  pose proof (getitem_keeps_entry b e w2 root _ _ Hr2 Hc1') as Hc1''.
  pose proof (getitem_keeps_entry b e w2 a _ _ Ha2 Hc2) as Hc2'.
  rewrite H3 in Hc1'', Hc2'. simpl in Hc1'', Hc2'.
  assert (Hint : in_result_server t (result_server w3) = false) by congruence.
  assert (Hinc : in_result_server c (result_server w3) = false) by congruence.
  assert (Hine : in_result_server e (result_server w3) = false) by congruence.
  unfold chained, bind.
  rewrite (getitem_hit _ _ _ _ Hx1 Hint Hc1''). simpl.
  rewrite (getitem_hit _ _ _ _ Hx2 Hinc Hc2'). simpl.
  apply (getitem_hit _ _ _ _ Hx3 Hine Hc3).
Qed.

(** C7, as the code has it. A container of the three upper levels first
    asks whether the item is a location known to the result server, any
    location, whatever the node's own path, and if so returns what the
    server loads for it (a stream, or the server's exception). Otherwise
    the item is a child key: the cached value under it is returned, or a
    new child of this node is created. An [ExtensionResult] asks nothing:
    it loads the file named by the item under its own path. *)
Theorem getitem_checks_whole_server_first self item w :
  (is_extension self = false ->
   (in_result_server item (result_server w) = true ->
      __getitem__ self item w
      = (content ← server_load_stream item; ret (Stream content)) w) /\
   (in_result_server item (result_server w) = false ->
      match cache_of self w !! _to_path_component self item with
      | Some v => __getitem__ self item w = Return v w
      | None => exists n w', __getitem__ self item w = Return (Child n) w' /\
                             parent_of n = self /\ id_of n = next_id w
      end)) /\
  (is_extension self = true ->
   forall filename,
     __getitem__ self (PyStr filename) w
     = (content ← on_server (rs_load_stream (path self +:+ "/" +:+ filename) false);
        ret (Stream content)) w).
Proof.
  split.
  - intros Hext. split; intros Hin.
    + apply getitem_in_server; assumption.
    + destruct (cache_of self w !! _to_path_component self item) as [v|] eqn:Hc.
      * apply getitem_hit; assumption.
      * destruct (getitem_miss _ _ _ Hext Hin Hc) as (n & Hid & Hp & _ & Hrun).
        eauto.
  - intros Hext filename. destruct self; try discriminate. reflexivity.
Qed.

End ResultHierarchy.

(** C9. For an item that is not a string, the path segment computed by
    [_ResultContainer._to_path_component] is the decimal text of the
    interpreter's [hash] of the item: two processes that hash the item
    differently give it different segments. *)
Theorem path_component_of_non_string_is_runtime_hash
    (P1 P2 : Interpreter) (item : pyobj) :
  (forall s, item <> PyStr s) ->
  @hash P1 item <> @hash P2 item ->
  @_ResultContainer_to_path_component P1 item = pretty (@hash P1 item) /\
  @_ResultContainer_to_path_component P1 item
    <> @_ResultContainer_to_path_component P2 item.
Proof.
  intros Hnot Hhash.
  assert (Hseg : forall P, @_ResultContainer_to_path_component P item
                           = pretty (@hash P item)).
  { intros P. destruct item; try reflexivity. destruct (Hnot s eq_refl). }
  split; [apply Hseg|]. rewrite !Hseg. intros Heq.
  apply Hhash. exact (inj pretty _ _ Heq).
Qed.

Lemma path_component_of_non_string_is_runtime_hash_witness :
  @_ResultContainer_to_path_component (process_with_seed 1) (PyObject "x")
    = pretty (@hash (process_with_seed 1) (PyObject "x")) /\
  @_ResultContainer_to_path_component (process_with_seed 1) (PyObject "x")
    <> @_ResultContainer_to_path_component (process_with_seed 2) (PyObject "x").
Proof.
  apply (path_component_of_non_string_is_runtime_hash
           (process_with_seed 1) (process_with_seed 2) (PyObject "x")).
  - intros s. discriminate.
  - vm_compute. discriminate.
Defined.

Section Samples.
#[local] Existing Instance sample_process.
#[local] Existing Instance sample_tokenization.

(** C7, against the claim as stated. The result server knows the
    location [setup/Ext/0e.json]; it is not beneath the root node, whose
    path is [transformations], neither as a name relative to that path
    nor as a full location under it. Indexing the root node with it
    returns the stream of that record all the same, not a child node.
    And an [ExtensionResult] indexed with an item that names no location
    beneath it returns no child node either: it raises what the failed
    read raised. *)
Lemma getitem_returns_stream_of_location_elsewhere :
  names_location_beneath sample_root (PyStr "setup/Ext/0e.json")
    facade_with_setup_record = false /\
  returned (__getitem__ sample_root (PyStr "setup/Ext/0e.json")
              (world_with_root facade_with_setup_record))
  = Some (Stream (encode_ascii "{}")) /\
  names_location_beneath sample_extension (PyStr "nofile")
    facade_with_setup_record = false /\
  raised (__getitem__ sample_extension (PyStr "nofile")
            (world_with_root facade_with_setup_record))
  = Some (MissingExternalResourceError "Metadata for 'transformations/t1/0/1/nofile' not found").
Proof. vm_compute. repeat split; reflexivity. Qed.

Lemma child_lookup_is_memoized_witness :
  let w := world_with_root (empty_facade (MemoryStorage ∅)) in
  let n := TransformationResult 1 sample_root "t1" (PyStr "t1") in
  let w1 := state_after (__getitem__ sample_root (PyStr "t1") w) in
  __getitem__ sample_root (PyStr "t1") w1 = Return (Child n) w1 /\
  (allocated sample_root w ->
   forall ops : list operation,
     let w2 := after_operations ops w1 in
     cache_of sample_root w2 !! _to_path_component sample_root (PyStr "t1")
     = Some (Child n) /\
     (in_result_server (PyStr "t1") (result_server w2) = false ->
      __getitem__ sample_root (PyStr "t1") w2 = Return (Child n) w2) /\
     (in_result_server (PyStr "t1") (result_server w2) = true ->
      __getitem__ sample_root (PyStr "t1") w2
      = (content ← server_load_stream (PyStr "t1"); ret (Stream content)) w2)).
Proof.
  apply (child_lookup_is_memoized sample_root (PyStr "t1")
           (world_with_root (empty_facade (MemoryStorage ∅)))).
  - reflexivity.
  - vm_compute. reflexivity.
Defined.

(** C8, against the claim as stated. The root node is indexed with the
    identifier [setup/Extension/0e.json] and gives a new child node. Then
    an object is stored whose record goes to that very location. The
    child is still in the root's cache under the identifier, but indexing
    the root with the identifier again returns the stream of the record,
    not the child of the first lookup. *)
Lemma later_lookup_returns_stream_once_identifier_is_stored :
  let item := PyStr "setup/Extension/0e.json" in
  let w := world_with_root (empty_facade (MemoryStorage ∅)) in
  let n := TransformationResult 1 sample_root "setup/Extension/0e.json" item in
  let w1 := state_after (__getitem__ sample_root item w) in
  let w2 := after_operations [StoreTokenizable "setup" sample_E] w1 in
  __getitem__ sample_root item w = Return (Child n) w1 /\
  cache_of sample_root w2 !! _to_path_component sample_root item
  = Some (Child n) /\
  returned (__getitem__ sample_root item w2)
  = Some (Stream (encode_utf8 (keyed_json_of sample_E))) /\
  returned (__getitem__ sample_root item w2) <> Some (Child n).
Proof. vm_compute. repeat split; try reflexivity. discriminate. Qed.

End Samples.

(** ** Storing an object graph *)

Section StoreGraph.
Context {S Registry : Type}.
Context `{!Interpreter, !ResultServer S}.

Local Abbreviation world := (world S Registry).

(** What the loop relies on from the result server: a write that
    returns makes its location known, and forgets no other. *)
Hypothesis store_bytes_adds :
  forall key data (s s' : S) u,
    rs_store_bytes key data s = Return u s' -> rs_contains s' key = true.
Hypothesis store_bytes_others :
  forall key data (s s' : S) u k,
    rs_store_bytes key data s = Return u s' ->
    k <> key -> rs_contains s' k = rs_contains s k.
Context `{!SetIteration}.

Implicit Types (w : world) (o : tokenizable).


Lemma store_if_unknown_cases prefix o w :
  (exists e, _gufe_key_to_storage_key prefix (key_of o) = inl e /\
             store_if_unknown prefix o w = Raise e w) \/
  (exists key, _gufe_key_to_storage_key prefix (key_of o) = inr key /\
               rs_contains (result_server w) key = true /\
               store_if_unknown prefix o w = Return tt w) \/
  (exists key, _gufe_key_to_storage_key prefix (key_of o) = inr key /\
               rs_contains (result_server w) key = false /\
               store_if_unknown prefix o w
               = on_server (rs_store_bytes key (encode_utf8 (keyed_json_of o)))
                   (logged key (encode_utf8 (keyed_json_of o)) w)).
Proof.
  unfold store_if_unknown, bind, lift, get_state.
  destruct (_gufe_key_to_storage_key prefix (key_of o)) as [e|key].
  - left. eauto.
  - right. destruct (rs_contains (result_server w) key) eqn:Hc; simpl.
    + left. eauto.
    + right. eauto.
Qed.

Lemma store_each_cons prefix o rest w :
  store_each prefix (o :: rest) w
  = match store_if_unknown prefix o w with
    | Return _ w1 => store_each prefix rest w1
    | Raise e w1 => Raise e w1
    end.
Proof. reflexivity. Qed.




End StoreGraph.

(** ** Loading an object graph *)

Section LoadGraph.
Context {S Json Registry Decoded : Type}.
Context `{!Interpreter, !ResultServer S, !Tokenization Json Registry Decoded}.

Local Abbreviation world := (world S Registry).

(** The state [s0] of the result server during the load: a read with
    [allow_changed] off leaves it as it is. *)
Variable s0 : S.
Hypothesis read_keeps_server :
  forall location, state_after (rs_load_stream location false s0) = s0.
Context `{!SetIteration}.

Implicit Types (w : world) (s : S).

Lemma load_stream_server location w :
  result_server w = s0 ->
  result_server (state_after (container_load_stream location false w)) = s0.
Proof.
  intros Hw. unfold container_load_stream, on_server. rewrite Hw.
  pose proof (read_keeps_server location) as Hs.
  destruct (rs_load_stream location false s0); exact Hs.
Qed.

Lemma on_registry_server {A} (m : call Registry A) w :
  result_server (state_after (on_registry m w)) = result_server w.
Proof. unfold on_registry. destruct (m (registry w)); reflexivity. Qed.

Lemma rebuild_unfold depth prefix gufe_key w :
  recursive_build_object_cache (Datatypes.S depth) prefix gufe_key w
  = match _gufe_key_to_storage_key prefix gufe_key with
    | inl e => Raise e w
    | inr storage_key =>
        match container_load_stream storage_key false w with
        | Raise e w1 => Raise e w1
        | Return content w1 =>
            match decode_utf8 content with
            | inl e => Raise e w1
            | inr text =>
                match json_loads text with
                | inl e => Raise e w1
                | inr dct =>
                    match for_each
                            (fun key =>
                               recursive_build_object_cache depth prefix key;;
                               ret tt)
                            (set_iteration (regex.findall text)) w1 with
                    | Raise e w2 => Raise e w2
                    | Return _ w2 => on_registry (key_decode_dependencies dct) w2
                    end
                end
            end
        end
    end.
Proof.
  cbn [recursive_build_object_cache]. unfold bind at 1, lift at 1.
  destruct (_gufe_key_to_storage_key prefix gufe_key) as [|storage_key];
    [reflexivity|].
  unfold bind at 1.
  destruct (container_load_stream storage_key false w) as [content w1|];
    [|reflexivity].
  unfold bind at 1, lift at 1. destruct (decode_utf8 content) as [|text];
    [reflexivity|].
  unfold bind at 1, lift at 1. destruct (json_loads text) as [|dct];
    [reflexivity|].
  unfold bind at 1.
  destruct (for_each _ _ w1); reflexivity.
Qed.

Lemma record_text_read prefix s gufe_key storage_key content s' text :
  _gufe_key_to_storage_key prefix gufe_key = inr storage_key ->
  rs_load_stream storage_key false s = Return content s' ->
  decode_utf8 content = inr text ->
  record_text prefix s gufe_key = Some text.
Proof. intros Hk Hr Hd. unfold record_text. rewrite Hk, Hr, Hd. reflexivity. Qed.

Lemma container_load_stream_inv location w content w1 :
  result_server w = s0 ->
  container_load_stream location false w = Return content w1 ->
  result_server w1 = s0 /\
  exists s', rs_load_stream location false s0 = Return content s'.
Proof.
  intros Hw Hrun. pose proof (load_stream_server location w Hw) as Hs.
  rewrite Hrun in Hs. split; [exact Hs|].
  unfold container_load_stream, on_server in Hrun. rewrite Hw in Hrun.
  destruct (rs_load_stream location false s0) as [c s'|e s'];
    inversion Hrun; subst. eauto.
Qed.

Lemma container_load_stream_raise location w e w1 :
  result_server w = s0 ->
  container_load_stream location false w = Raise e w1 ->
  exists s', rs_load_stream location false s0 = Raise e s'.
Proof.
  intros Hw. unfold container_load_stream, on_server. rewrite Hw.
  destruct (rs_load_stream location false s0) as [c s'|e' s'];
    intros Hrun; inversion Hrun; subst. eauto.
Qed.

(** The inner function returns an object only when every key referenced
    from its argument, directly or through other records, was read; and
    it leaves the result server as it was. *)
Lemma rebuild_returns_only_if_resolved depth prefix :
  forall root w v w',
    result_server w = s0 ->
    recursive_build_object_cache depth prefix root w = Return v w' ->
    result_server w' = s0 /\
    forall key, reachable prefix s0 root key -> resolved prefix s0 key.
Proof.
  induction depth as [|depth IH]; intros root w v w' Hw Hrun; [discriminate|].
  rewrite rebuild_unfold in Hrun.
  destruct (_gufe_key_to_storage_key prefix root) as [|storage_key] eqn:Hkey;
    [discriminate|].
  destruct (container_load_stream storage_key false w) as [content w1|] eqn:Hload;
    [|discriminate].
  destruct (container_load_stream_inv _ _ _ _ Hw Hload) as (Hs1 & s' & Hread).
  destruct (decode_utf8 content) as [|text] eqn:Hdec; [discriminate|].
  destruct (json_loads text) as [|dct] eqn:Hjson; [discriminate|].
  destruct (for_each _ _ w1) as [u w2|] eqn:Hloop; [|discriminate].
  assert (Hkeys : forall keys wa wb ub,
             result_server wa = s0 ->
             for_each (fun key =>
                         recursive_build_object_cache depth prefix key;; ret tt)
                      keys wa = Return ub wb ->
             result_server wb = s0 /\
             forall k0, k0 ∈ keys ->
               forall key, reachable prefix s0 k0 key -> resolved prefix s0 key).
  { clear -IH. induction keys as [|k0 keys IHk]; intros wa wb ub Hsa Hfor.
    - inversion Hfor; subst. split; [reflexivity|]. intros k0 Hk0. inversion Hk0.
    - cbn [for_each] in Hfor. unfold bind at 1 2 in Hfor.
      destruct (recursive_build_object_cache depth prefix k0 wa) as [v1 wc|] eqn:Hrec;
        [|discriminate].
      destruct (IH _ _ _ _ Hsa Hrec) as (Hsc & Hres).
      unfold ret at 1 in Hfor.
      destruct (IHk _ _ _ Hsc Hfor) as (Hsb & Hrest).
      split; [exact Hsb|]. intros k1 Hk1.
      apply elem_of_cons in Hk1 as [->|Hk1]; [exact Hres|exact (Hrest k1 Hk1)]. }
  destruct (Hkeys _ _ _ _ Hs1 Hloop) as (Hs2 & Hdeep).
  split.
  - pose proof (on_registry_server (key_decode_dependencies dct) w2) as Hs3.
    rewrite Hrun in Hs3. simpl in Hs3. congruence.
  - intros key Hreach. apply rtc_inv in Hreach as [->|(k1 & (text' & Htext & Hin) & Hrest)].
    + exists storage_key, content, s'. split; assumption.
    + rewrite (record_text_read _ _ _ _ _ _ _ Hkey Hread Hdec) in Htext.
      injection Htext as <-.
      apply (Hdeep k1); [|exact Hrest]. apply set_iteration_elem. exact Hin.
Qed.

(** The exception the inner function raises is the one raised by a step
    of the reconstruction of some key referenced from its argument, as
    that step raised it, or it is the interpreter's [RecursionError]. *)
Lemma rebuild_raises_what_a_step_raised depth prefix :
  forall root w e w',
    result_server w = s0 ->
    recursive_build_object_cache depth prefix root w = Raise e w' ->
    e = RecursionError \/
    exists key, reachable prefix s0 root key /\ fails_at prefix s0 key e.
Proof.
  induction depth as [|depth IH]; intros root w e w' Hw Hrun.
  { left. inversion Hrun. reflexivity. }
  rewrite rebuild_unfold in Hrun.
  assert (Hhere : fails_at prefix s0 root e ->
                  e = RecursionError \/
                  exists key, reachable prefix s0 root key /\
                              fails_at prefix s0 key e).
  { intros Hf. right. exists root. split; [apply rtc_refl|exact Hf]. }
  destruct (_gufe_key_to_storage_key prefix root) as [e0|storage_key] eqn:Hkey.
  { injection Hrun as -> ->. apply Hhere. left. exact Hkey. }
  destruct (container_load_stream storage_key false w) as [content w1|e0 w1] eqn:Hload.
  2:{ injection Hrun as -> ->.
      destruct (container_load_stream_raise _ _ _ _ Hw Hload) as (s' & Hread).
      apply Hhere. right. left. eauto. }
  destruct (container_load_stream_inv _ _ _ _ Hw Hload) as (Hs1 & s' & Hread).
  destruct (decode_utf8 content) as [e0|text] eqn:Hdec.
  { injection Hrun as -> ->. apply Hhere. right. right.
    exists storage_key, content, s'. auto. }
  destruct (json_loads text) as [e0|dct] eqn:Hjson.
  { injection Hrun as -> ->. apply Hhere. right. right.
    exists storage_key, content, s'. split; [assumption|]. split; [assumption|].
    right. exists text. auto. }
  destruct (for_each _ _ w1) as [u w2|e0 w2] eqn:Hloop.
  - unfold on_registry in Hrun.
    destruct (key_decode_dependencies dct (registry w2)) as [|e0 r'] eqn:Hbuild;
      [discriminate|]. injection Hrun as -> _.
    apply Hhere. right. right.
    exists storage_key, content, s'. split; [assumption|]. split; [assumption|].
    right. exists text. split; [assumption|]. right. eauto.
  - injection Hrun as -> ->.
    assert (Hkeys : forall keys wa,
               result_server wa = s0 ->
               for_each (fun key =>
                           recursive_build_object_cache depth prefix key;; ret tt)
                        keys wa = Raise e w' ->
               e = RecursionError \/
               exists k0 key, k0 ∈ keys /\
                 reachable prefix s0 k0 key /\ fails_at prefix s0 key e).
    { clear Hloop Hload Hread Hhere. induction keys as [|k0 keys IHk]; intros wa Hsa Hfor;
        [discriminate|].
      cbn [for_each] in Hfor. unfold bind at 1 2 in Hfor.
      destruct (recursive_build_object_cache depth prefix k0 wa) as [v1 wc|e1 wc] eqn:Hrec.
      - unfold ret at 1 in Hfor.
        destruct (rebuild_returns_only_if_resolved _ _ _ _ _ _ Hsa Hrec) as (Hsc & _).
        destruct (IHk _ Hsc Hfor) as [->|(k1 & key & Hk1 & Hr & Hf)]; [left; reflexivity|].
        right. exists k1, key. split; [right; exact Hk1|]. split; assumption.
      - injection Hfor as -> ->.
        destruct (IH _ _ _ _ Hsa Hrec) as [->|(key & Hr & Hf)]; [left; reflexivity|].
        right. exists k0, key. split; [left|]. split; assumption. }
    destruct (Hkeys _ _ Hs1 Hloop) as [->|(k0 & key & Hk0 & Hr & Hf)];
      [left; reflexivity|].
    right. exists key. split; [|exact Hf].
    eapply rtc_l; [|exact Hr]. exists text. split.
    + exact (record_text_read _ _ _ _ _ _ _ Hkey Hread Hdec).
    + apply set_iteration_elem in Hk0. exact Hk0.
Qed.

(** C4, as the code has it. If some key referenced from the root,
    directly or through other records, cannot be read from the result
    server, then [_load_gufe_tokenizable] raises: the caller gets one
    exception and no object, whatever was rebuilt before the failure.
    There is no error of its own for a missing dependency: the exception
    is the first one raised on the way, unchanged, that is the one a
    step of the reconstruction of some referenced key raised (reading,
    decoding, parsing or rebuilding it), or the interpreter's
    [RecursionError]. *)
Theorem load_aborts_on_unresolved_key prefix (root key : string) w :
  result_server w = s0 ->
  reachable prefix s0 root key ->
  unresolved prefix s0 key ->
  returned (_load_gufe_tokenizable prefix root w) = None /\
  exists e w',
    _load_gufe_tokenizable prefix root w = Raise e w' /\
    (e = RecursionError \/
     exists key', reachable prefix s0 root key' /\ fails_at prefix s0 key' e).
Proof.
  intros Hw Hreach (storage_key & e & s' & Hkey & Hraise).
  unfold _load_gufe_tokenizable.
  destruct (recursive_build_object_cache recursion_limit prefix root w)
    as [v w'|e' w'] eqn:Hrun.
  - exfalso.
    destruct (rebuild_returns_only_if_resolved _ _ _ _ _ _ Hw Hrun) as (_ & Hres).
    destruct (Hres key Hreach) as (sk & content & s'' & Hkey' & Hread).
    congruence.
  - split; [reflexivity|]. exists e', w'. split; [reflexivity|].
    exact (rebuild_raises_what_a_step_raised _ _ _ _ _ _ Hw Hrun).
Qed.

End LoadGraph.

(** ** The facade and the sample process meet what the theorems ask *)




Lemma load_stream_keeps_state_when_strict location metadata (w : runtime) :
  allow_changed w = false ->
  state_after (load_stream location metadata w) = w.
Proof.
  intros Hflag. unfold load_stream, validate, get_metadata, _get_hexdigest.
  unfold bind at 1 2 3.
  destruct (_load_stream location w) as [content w1|e w1] eqn:Hload;
    pose proof (_load_stream_keeps_state _ _ _ Hload) as Hw; simpl in Hw; subst w1;
    [|reflexivity].
  unfold ret at 1.
  destruct (negb (hashlib.md5_hexdigest content =? metadata)%string).
  - unfold bind, get_state. rewrite Hflag. reflexivity.
  - unfold ret. rewrite Hload. reflexivity.
Qed.

Lemma facade_read_keeps_state location flag (f : facade) :
  allow_changed (external_store f) = false ->
  state_after (facade_load_stream location flag f) = f.
Proof.
  intros Hflag. unfold facade_load_stream, bind, get_state.
  destruct (metadata_store f !! location) as [metadata|]; [|reflexivity].
  unfold on_external.
  pose proof (load_stream_keeps_state_when_strict location metadata _ Hflag) as Hw.
  destruct (load_stream location metadata (external_store f)); simpl in Hw; subst;
    destruct f; reflexivity.
Qed.

Lemma facade_reads_keep_server (f : facade) :
  allow_changed (external_store f) = false ->
  forall location, state_after (rs_load_stream location false f) = f.
Proof. intros Hflag location. apply facade_read_keeps_state, Hflag. Qed.

Lemma remove_dups_is_set_iteration (seed : Z) : @SetIteration (process_with_seed seed).
Proof.
  split; intros A EqA l; [intros x|]; simpl.
  - apply elem_of_remove_dups.
  - apply NoDup_remove_dups.
Qed.

Section Witnesses.
#[local] Existing Instance sample_process.
#[local] Existing Instance sample_tokenization.

(** The transformation with two clones sharing one extension: four
    records are written, not five. *)
Example store_transformation_writes_four_records :
  written_between empty_world (state_after (store_transformation sample_T empty_world))
  = ["setup/Transformation/0a.json"; "setup/Clone/c1.json";
     "setup/Clone/c2.json"; "setup/Extension/0e.json"].
Proof. vm_compute. reflexivity. Qed.


(** Loading the stored graph gives the root record back. *)
Example load_transformation_of_stored_graph :
  returned (load_transformation "Transformation-0a" world_with_graph)
  = Some (keyed_json_of sample_T).
Proof. vm_compute. reflexivity. Qed.

Lemma load_aborts_on_unresolved_key_witness :
  returned (_load_gufe_tokenizable "setup" "Transformation-0a"
              world_missing_extension) = None /\
  exists e w',
    _load_gufe_tokenizable "setup" "Transformation-0a" world_missing_extension
    = Raise e w' /\
    (e = RecursionError \/
     exists key',
       reachable "setup" (result_server world_missing_extension)
         "Transformation-0a" key' /\
       fails_at "setup" (result_server world_missing_extension) key' e).
Proof.
  apply (load_aborts_on_unresolved_key
           (result_server world_missing_extension)
           (facade_reads_keep_server (result_server world_missing_extension)
              eq_refl)
           (H0 := remove_dups_is_set_iteration 0)
           "setup" "Transformation-0a" "Extension-0e" world_missing_extension).
  - reflexivity.
  - eapply rtc_l; [|eapply rtc_l; [|apply rtc_refl]].
    + exists (keyed_json_of sample_T). split; [vm_compute; reflexivity|].
      vm_compute. left.
    + exists (keyed_json_of sample_C1). split; [vm_compute; reflexivity|].
      vm_compute. left.
  - exists "setup/Extension/0e.json". eexists _, _.
    split; [vm_compute; reflexivity|]. vm_compute. reflexivity.
Defined.

(** C4, against the claim as stated. The key [Gone-0e] is referenced
    from [Root-00] and nothing is stored for it: asked for on its own it
    raises the server's error for a missing record. The load of
    [Root-00] follows the reference to [Loop-aa] first, whose record
    refers to itself, and ends in [RecursionError], which reports no
    missing dependency. *)
Lemma load_with_unresolved_key_ends_in_RecursionError :
  let s := result_server world_with_cycle_beside_gap in
  reachable "setup" s "Root-00" "Gone-0e" /\
  unresolved "setup" s "Gone-0e" /\
  raised (_load_gufe_tokenizable "setup" "Gone-0e" world_with_cycle_beside_gap)
  = Some (MissingExternalResourceError
            "Metadata for 'setup/Gone/0e.json' not found") /\
  raised (_load_gufe_tokenizable "setup" "Root-00" world_with_cycle_beside_gap)
  = Some RecursionError.
Proof.
  cbv zeta. split; [|split; [|split]].
  - eapply rtc_l; [|apply rtc_refl].
    exists ("[" +:+ key_reference "Loop-aa" +:+ ", "
                +:+ key_reference "Gone-0e" +:+ "]").
    split; [vm_compute; reflexivity|]. vm_compute. right. left.
  - exists "setup/Gone/0e.json". eexists _, _.
    split; [vm_compute; reflexivity|]. vm_compute. reflexivity.
  - vm_compute. reflexivity.
  - vm_compute. reflexivity.
Qed.

Lemma path_of_node_and_traversal_witness :
  let w := world_with_root (empty_facade (MemoryStorage ∅)) in
  let w3 := state_after (chained sample_root (PyStr "t1") (PyInt 0) (PyInt 1) w) in
  exists d, chained sample_root (PyStr "t1") (PyInt 0) (PyInt 1) w3
            = Return (Child d) w3 /\
            d = sample_extension /\
            path d = "transformations/t1/0/1".
Proof.
  pose proof (@path_of_node_and_traversal facade nat sample_process facade_server)
    as (_ & _ & Hchain).
  eapply (Hchain (world_with_root (empty_facade (MemoryStorage ∅)))
                sample_root (PyStr "t1") (PyInt 0) (PyInt 1)
                (TransformationResult 1 sample_root "t1" (PyStr "t1"))
                (CloneResult 2 (TransformationResult 1 sample_root "t1" (PyStr "t1"))
                   "0" (PyInt 0))).
  - unfold allocated. simpl. lia.
  - intros i cache h n Hi Hh. simpl in Hi.
    apply lookup_singleton_Some in Hi as [_ <-].
    rewrite lookup_empty in Hh. discriminate.
  - vm_compute. reflexivity.
  - vm_compute. reflexivity.
  - vm_compute. reflexivity.
Defined.

End Witnesses.

(** * Further properties of the external storage *)

Lemma get_metadata_depends_on_storage_only_aux location (w : runtime) :
  state_after (get_metadata location w) = w /\
  forall w2, storage w = storage w2 ->
    returned (get_metadata location w) = returned (get_metadata location w2) /\
    raised (get_metadata location w) = raised (get_metadata location w2).
Proof.
  unfold get_metadata, _get_hexdigest, _load_stream. run. split.
  - destruct (storage w); [destruct (open_rb _ _)|destruct (_ !! _)]; reflexivity.
  - intros w2 <-.
    destruct (storage w); [destruct (open_rb _ _)|destruct (_ !! _)];
      split; reflexivity.
Qed.

(** X1. [get_metadata] only reads: it leaves the state as it was whether
    it returns or raises, and what it returns or raises depends on the
    stored data alone, not on the warnings issued so far or on
    [allow_changed]. *)
Theorem get_metadata_depends_on_storage_only location (w1 w2 : runtime) :
  state_after (get_metadata location w1) = w1 /\
  (storage w1 = storage w2 ->
   returned (get_metadata location w1) = returned (get_metadata location w2) /\
   raised (get_metadata location w1) = raised (get_metadata location w2)).
Proof.
  destruct (get_metadata_depends_on_storage_only_aux location w1) as [Hs Hd].
  split; [exact Hs|]. intros Heq. exact (Hd w2 Heq).
Qed.

Lemma validate_unreadable location metadata w e :
  _load_stream location w = Raise e w ->
  validate location metadata w = Raise e w.
Proof.
  intros Hload. unfold validate, get_metadata, _get_hexdigest, bind.
  rewrite Hload. reflexivity.
Qed.

Lemma validate_frame location metadata w :
  state_after (validate location metadata w) = w \/
  (returned (validate location metadata w) = Some tt /\
   allow_changed w = true /\
   state_after (validate location metadata w)
   = with_warning w (mismatch_message location)).
Proof.
  destruct (_load_stream location w) as [content w1|e w1] eqn:Hload;
    pose proof (_load_stream_keeps_state _ _ _ Hload) as Hw; simpl in Hw; subst w1.
  - destruct (decide (hashlib.md5_hexdigest content = metadata)) as [<-|Hne].
    + rewrite (validate_match _ _ _ Hload). left. reflexivity.
    + rewrite (validate_mismatch _ _ _ _ Hload Hne).
      destruct (allow_changed w); [right; auto|left; reflexivity].
  - rewrite (validate_unreadable _ _ _ _ Hload). left. reflexivity.
Qed.

(** X2. The reading operations never change what is stored: after
    [validate], [load_stream] or [get_filename], whether it returned or
    raised, the backend holds the same data and [allow_changed] has the
    same value; the only thing that can have changed is the list of
    warnings, longer by at most the one mismatch warning. *)
Theorem validated_reads_keep_the_data location metadata (w : runtime) :
  let unchanged_or_warned (w' : runtime) :=
    w' = w \/ w' = with_warning w (mismatch_message location) in
  unchanged_or_warned (state_after (validate location metadata w)) /\
  unchanged_or_warned (state_after (load_stream location metadata w)) /\
  unchanged_or_warned (state_after (get_filename location metadata w)).
Proof.
  cbv zeta. pose proof (validate_frame location metadata w) as Hv.
  assert (Hsame : state_after (validate location metadata w) = w \/
                  state_after (validate location metadata w)
                  = with_warning w (mismatch_message location)).
  { destruct Hv as [Hv|(_ & _ & Hv)]; auto. }
  split; [exact Hsame|]. split.
  - unfold load_stream, bind.
    destruct (validate location metadata w) as [u w1|e w1]; simpl in *;
      [|exact Hsame].
    destruct (_load_stream location w1) as [c w2|e w2] eqn:Hload;
      pose proof (_load_stream_keeps_state _ _ _ Hload) as Hw; simpl in *;
      subst w2; exact Hsame.
  - unfold get_filename, bind.
    destruct (validate location metadata w) as [u w1|e w1]; simpl in *;
      [|exact Hsame].
    unfold _get_filename, bind, get_state, ret.
    destruct (storage w1); simpl; exact Hsame.
Qed.

(** X3. The whole life of a location in a [MemoryStorage], from any
    state: [store] returns the location and the MD5 digest of the payload;
    the location then exists and loads back the payload; [delete] removes
    it, which leaves the dictionary of before the store without that
    location; after that the location does not exist and deleting it again
    raises [MissingExternalResourceError]. *)
Theorem memory_store_load_delete _data flag ws location (P : bytes) :
  let mk d := {| storage := MemoryStorage d; allow_changed := flag; warned := ws |} in
  let w1 := mk (<[location := P]> _data) in
  let w2 := mk (delete location _data) in
  store location P (mk _data) = Return (location, hashlib.md5_hexdigest P) w1 /\
  exists_at location w1 = Return true w1 /\
  load_stream location (hashlib.md5_hexdigest P) w1 = Return P w1 /\
  delete_at location w1 = Return tt w2 /\
  exists_at location w2 = Return false w2 /\
  exists msg, delete_at location w2 = Raise (MissingExternalResourceError msg) w2.
Proof.
  cbv zeta. split; [apply memory_store_returns|].
  assert (Hread : _load_stream location
            {| storage := MemoryStorage (<[location := P]> _data);
               allow_changed := flag; warned := ws |}
          = Return P {| storage := MemoryStorage (<[location := P]> _data);
                        allow_changed := flag; warned := ws |}).
  { unfold _load_stream. run. rewrite lookup_insert_eq. reflexivity. }
  split; [|split; [|split; [|split]]].
  - unfold exists_at, _exists. run. rewrite lookup_insert_eq.
    rewrite bool_decide_eq_true_2 by eauto. reflexivity.
  - unfold load_stream, bind. rewrite (validate_match _ _ _ Hread). exact Hread.
  - unfold delete_at, _delete, set_storage. run. rewrite lookup_insert_eq.
    rewrite delete_insert_eq. reflexivity.
  - unfold exists_at, _exists. run. rewrite lookup_delete_eq.
    rewrite bool_decide_eq_false_2; [reflexivity|]. intros [x Hx]. discriminate.
  - unfold delete_at, _delete. run. rewrite lookup_delete_eq. eexists. reflexivity.
Qed.

(** *** The file backend *)

Lemma mkdir_chain_post dirs (fs fs' : gmap string inode) :
  mkdir_chain dirs fs = inr fs' ->
  (forall k v, fs !! k = Some v -> fs' !! k = Some v) /\
  (forall d, d ∈ dirs -> stat fs' d = Some Directory).
Proof.
  revert fs. induction dirs as [|d rest IH]; intros fs Hrun; simpl in Hrun.
  { injection Hrun as <-. split; [auto|]. intros d Hd. inversion Hd. }
  destruct (stat fs d) as [[content|]|] eqn:Hstat; [discriminate| |].
  - destruct (IH _ Hrun) as [Hkeep Hdirs]. split; [exact Hkeep|].
    intros d' Hd'. apply elem_of_cons in Hd' as [->|Hd']; [|exact (Hdirs _ Hd')].
    unfold stat in *. destruct (parts d); [reflexivity|]. exact (Hkeep _ _ Hstat).
  - destruct (IH _ Hrun) as [Hkeep Hdirs].
    assert (Hfree : parts d <> [] /\ fs !! str d = None).
    { unfold stat in Hstat. destruct (parts d); [discriminate|]. split; [discriminate|exact Hstat]. }
    destruct Hfree as [Hparts Hfree]. split.
    + intros k v Hk. apply Hkeep. rewrite lookup_insert_ne; [exact Hk|].
      intros <-. congruence.
    + intros d' Hd'. apply elem_of_cons in Hd' as [->|Hd']; [|exact (Hdirs _ Hd')].
      rewrite (stat_of_components _ _ Hparts). apply Hkeep, lookup_insert_eq.
Qed.

(** What [store] did when it returned, on the file backend. *)
Lemma file_store_returned root_dir disk flag ws location (P : bytes) loc md w1 :
  store location P
    {| storage := FileStorage root_dir disk; allow_changed := flag; warned := ws |}
  = Return (loc, md) w1 ->
  exists disk1,
    mkdir_parents disk (parent (_as_path root_dir location)) = inr disk1 /\
    parts (_as_path root_dir location) <> [] /\
    stat disk1 (parent (_as_path root_dir location)) = Some Directory /\
    loc = str (_as_path root_dir location) /\
    w1 = {| storage := FileStorage root_dir
                         (<[str (_as_path root_dir location) := RegularFile P]> disk1);
            allow_changed := flag; warned := ws |}.
Proof.
  unfold store, _store, set_storage.
  unfold bind at 1, get_state. cbn [storage].
  set (path := _as_path root_dir location).
  unfold bind at 1, lift at 1.
  destruct (mkdir_parents disk (parent path)) as [|disk1] eqn:Hmk; [discriminate|].
  unfold bind at 1. cbn [allow_changed warned storage].
  unfold bind at 1, lift at 1.
  destruct (open_wb disk1 path P) as [|disk2] eqn:Hwrite; [discriminate|].
  destruct (open_wb_written _ _ _ _ Hwrite) as (Hparts & ->).
  unfold bind at 1. cbn [allow_changed warned storage].
  unfold bind at 1.
  match goal with |- context [get_metadata ?l ?w] =>
    pose proof (proj1 (get_metadata_depends_on_storage_only_aux l w)) as Hs;
    destruct (get_metadata l w) as [m w2|e w2]; simpl in Hs; subst w2
  end; [|discriminate].
  unfold ret. intros H. injection H as <- <- <-.
  exists disk1. split; [reflexivity|]. split; [exact Hparts|]. split; [|auto].
  unfold open_wb in Hwrite.
  destruct (stat disk1 path) as [[]|]; try discriminate;
    destruct (stat disk1 (parent path)) as [[]|]; try discriminate; reflexivity.
Qed.

(** * Strings: append, prefix, split and join *)

Ltac app_cons :=
  repeat match goal with
         | |- context [String ?x ?a +:+ ?b] =>
             change (String x a +:+ b) with (String x (a +:+ b))
         | |- context [EmptyString +:+ ?b] => change (EmptyString +:+ b) with b
         end.

Lemma string_length_app a b :
  String.length (a +:+ b) = (String.length a + String.length b)%nat.
Proof. induction a as [|c a IH]; app_cons; simpl; [reflexivity|]. f_equal. exact IH. Qed.

Lemma string_app_assoc a b c : (a +:+ b) +:+ c = a +:+ (b +:+ c).
Proof. induction a as [|x a IH]; app_cons; [reflexivity|]. f_equal. exact IH. Qed.

Lemma string_app_nil_r a : a +:+ "" = a.
Proof. induction a as [|x a IH]; app_cons; [reflexivity|]. f_equal. exact IH. Qed.

Lemma prefix_app a b : String.prefix a (a +:+ b) = true.
Proof.
  induction a as [|x a IH]; app_cons; simpl; [destruct b; reflexivity|].
  destruct (Ascii.ascii_dec x x); [exact IH|contradiction].
Qed.

Lemma prefix_trans a b c :
  String.prefix a b = true -> String.prefix b c = true -> String.prefix a c = true.
Proof.
  revert a b. induction c as [|z c IH]; intros a b Hab Hbc.
  - destruct b; [|discriminate]. destruct a; [reflexivity|discriminate].
  - destruct a as [|x a]; [reflexivity|].
    destruct b as [|y b]; [discriminate|]. simpl in *.
    destruct (Ascii.ascii_dec x y) as [->|]; [|discriminate].
    destruct (Ascii.ascii_dec y z) as [->|]; [|discriminate].
    exact (IH _ _ Hab Hbc).
Qed.

Lemma split_on_not_nil sep s : split_on sep s <> [].
Proof.
  destruct s as [|c s]; simpl; [discriminate|].
  destruct (Ascii.eqb c sep); [discriminate|].
  destruct (split_on sep s); discriminate.
Qed.

(** Joining the pieces of a split with the separator gives the string
    back. *)
Lemma join_split_on sep s : join (String sep "") (split_on sep s) = s.
Proof.
  induction s as [|c s IH]; [reflexivity|]. simpl.
  destruct (Ascii.eqb_spec c sep) as [->|Hne].
  - pose proof (split_on_not_nil sep s) as Hnil.
    destruct (split_on sep s) as [|h t]; [contradiction|].
    change (join (String sep "") ("" :: h :: t))
      with (String sep (join (String sep "") (h :: t))).
    rewrite IH. reflexivity.
  - pose proof (split_on_not_nil sep s) as Hnil.
    destruct (split_on sep s) as [|h t]; [contradiction|].
    destruct t as [|h' t]; simpl in *; rewrite <- IH; reflexivity.
Qed.

Lemma join_app sep (l1 l2 : list string) :
  l1 <> [] -> l2 <> [] ->
  join sep (l1 ++ l2) = join sep l1 +:+ sep +:+ join sep l2.
Proof.
  intros H1 H2. induction l1 as [|x l1 IH]; [contradiction|].
  destruct l1 as [|y l1].
  - destruct l2 as [|z l2]; [contradiction|]. reflexivity.
  - change (join sep ((x :: y :: l1) ++ l2))
      with (x +:+ sep +:+ join sep ((y :: l1) ++ l2)).
    rewrite IH by discriminate.
    change (join sep (x :: y :: l1)) with (x +:+ sep +:+ join sep (y :: l1)).
    rewrite !string_app_assoc. reflexivity.
Qed.

Lemma split_on_length sep s :
  length (split_on sep s) = Datatypes.S (count_char sep s).
Proof.
  induction s as [|c s IH]; [reflexivity|]. simpl.
  destruct (Ascii.eqb c sep); simpl; [rewrite IH; reflexivity|].
  pose proof (split_on_not_nil sep s) as Hnil.
  destruct (split_on sep s); [contradiction|]. exact IH.
Qed.



(** * Further properties of the file backend *)

Lemma file_read_of_entry root_dir disk flag ws location content :
  parts (_as_path root_dir location) <> [] ->
  disk !! str (_as_path root_dir location) = Some (RegularFile content) ->
  let w := {| storage := FileStorage root_dir disk; allow_changed := flag;
              warned := ws |} in
  _load_stream location w = Return content w.
Proof.
  intros Hparts Hentry w. unfold _load_stream, bind, get_state. cbn [storage w].
  unfold open_rb. rewrite (stat_of_components _ _ Hparts), Hentry. reflexivity.
Qed.

Lemma file_entry_of_read root_dir disk flag ws location content w' :
  _load_stream location
    {| storage := FileStorage root_dir disk; allow_changed := flag; warned := ws |}
  = Return content w' ->
  parts (_as_path root_dir location) <> [] /\
  disk !! str (_as_path root_dir location) = Some (RegularFile content).
Proof.
  unfold _load_stream, bind, get_state. cbn [storage]. unfold open_rb, stat.
  destruct (parts (_as_path root_dir location)) eqn:Hparts; [discriminate|].
  destruct (disk !! str (_as_path root_dir location)) as [[c|]|]; try discriminate.
  unfold ret. intros H. injection H as <- _. split; [discriminate|reflexivity].
Qed.

(** The state [store] leaves on the file backend, in every case: the disk
    as it was, or with the missing directories made, or with the file
    written as well. *)
Lemma file_store_state root_dir disk flag ws location (P : bytes) :
  let path := _as_path root_dir location in
  exists disk',
    state_after (store location P
                   {| storage := FileStorage root_dir disk; allow_changed := flag;
                      warned := ws |})
    = {| storage := FileStorage root_dir disk'; allow_changed := flag; warned := ws |} /\
    (disk' = disk \/
     exists disk1, mkdir_parents disk (parent path) = inr disk1 /\
                   (disk' = disk1 \/ disk' = <[str path := RegularFile P]> disk1)).
Proof.
  intros path. unfold store, _store, set_storage.
  unfold bind at 1, get_state. cbn [storage]. fold path.
  unfold bind at 1, lift at 1.
  destruct (mkdir_parents disk (parent path)) as [|disk1] eqn:Hmk.
  { exists disk. split; [reflexivity|left; reflexivity]. }
  unfold bind at 1. cbn [allow_changed warned storage].
  unfold bind at 1, lift at 1.
  destruct (open_wb disk1 path P) as [|disk2] eqn:Hwrite.
  { exists disk1. split; [reflexivity|]. right. exists disk1. auto. }
  destruct (open_wb_written _ _ _ _ Hwrite) as (Hparts & ->).
  unfold bind at 1. cbn [allow_changed warned storage].
  unfold bind at 1.
  match goal with |- context [get_metadata ?l ?w] =>
    pose proof (proj1 (get_metadata_depends_on_storage_only_aux l w)) as Hs;
    destruct (get_metadata l w) as [m w2|e w2]; simpl in Hs; subst w2
  end; (eexists; split; [reflexivity|]; right; exists disk1; auto).
Qed.

(** X4. Storing at one location leaves the data of every other place
    alone, on both backends and whether or not the store itself succeeds:
    a location that could be read before reads the same bytes afterwards.
    On the file backend the two locations are to name different files
    beyond doubt: paths of the same anchor, without a [..] step, that
    differ as texts. *)
Theorem store_leaves_other_locations (w : runtime) location (P : bytes)
    other content :
  _load_stream other w = Return content w ->
  different_place (storage w) other location ->
  _load_stream other (state_after (store location P w))
  = Return content (state_after (store location P w)).
Proof.
  destruct w as [[root_dir disk|_data] flag ws]; intros Hread Hdiff; simpl in Hdiff.
  - destruct Hdiff as (_ & _ & _ & Hdiff).
    destruct (file_entry_of_read _ _ _ _ _ _ _ Hread) as [Hparts Hentry].
    destruct (file_store_state root_dir disk flag ws location P) as (disk' & -> & Hdisk).
    apply file_read_of_entry; [exact Hparts|].
    destruct Hdisk as [->|(disk1 & Hmk & [->| ->])]; [exact Hentry| |].
    + exact (proj1 (mkdir_chain_post _ _ _ Hmk) _ _ Hentry).
    + rewrite lookup_insert_ne by congruence.
      exact (proj1 (mkdir_chain_post _ _ _ Hmk) _ _ Hentry).
  - rewrite memory_store_returns. simpl.
    unfold _load_stream, bind, get_state in *. cbn [storage] in *.
    rewrite lookup_insert_ne by congruence. 
    destruct (_data !! other); [|discriminate].
    unfold ret in *. injection Hread as ->. reflexivity.
Qed.

Lemma store_leaves_other_locations_witness :
  let w := {| storage := FileStorage (Path "/data")
                           {[ "/data/a" := RegularFile (encode_ascii "x") ]};
              allow_changed := false; warned := [] |} in
  _load_stream "a" (state_after (store "b/c" (encode_ascii "y") w))
  = Return (encode_ascii "x") (state_after (store "b/c" (encode_ascii "y") w)).
Proof.
  apply (store_leaves_other_locations
           {| storage := FileStorage (Path "/data")
                           {[ "/data/a" := RegularFile (encode_ascii "x") ]};
              allow_changed := false; warned := [] |}
           "b/c" (encode_ascii "y") "a" (encode_ascii "x")).
  - vm_compute. reflexivity.
  - repeat split; try (vm_compute; reflexivity). vm_compute. discriminate.
Defined.

(** X5. On the file backend, once [store] has returned: the location
    exists; [delete] removes the file; after that the location does not
    exist, its metadata cannot be read and deleting it again raises
    [MissingExternalResourceError]. This holds for every root directory,
    relative ones included. *)
Theorem file_store_exists_delete root_dir disk flag ws location (P : bytes)
    loc md w1 :
  store location P
    {| storage := FileStorage root_dir disk; allow_changed := flag; warned := ws |}
  = Return (loc, md) w1 ->
  exists_at location w1 = Return true w1 /\
  exists w2,
    delete_at location w1 = Return tt w2 /\
    exists_at location w2 = Return false w2 /\
    (exists msg, get_metadata location w2 = Raise (MissingExternalResourceError msg) w2) /\
    (exists msg, delete_at location w2 = Raise (MissingExternalResourceError msg) w2).
Proof.
  intros Hstore.
  destruct (file_store_returned _ _ _ _ _ _ _ _ _ Hstore)
    as (disk1 & _ & Hparts & _ & _ & ->).
  set (path := _as_path root_dir location) in *.
  assert (Hstat : forall d : gmap string inode, stat d path = d !! str path).
  { intros d. apply stat_of_components, Hparts. }
  split.
  - unfold exists_at, _exists, bind, get_state, ret. cbn [storage]. fold path.
    unfold exists_. rewrite Hstat, lookup_insert_eq. reflexivity.
  - eexists. split; [|split; [|split]].
    + unfold delete_at, _delete, exists_at, _exists, set_storage.
      unfold bind, get_state, ret, lift. cbn [storage]. fold path.
      unfold exists_, unlink. rewrite !Hstat, !lookup_insert_eq.
      cbn [allow_changed warned]. rewrite delete_insert_eq. reflexivity.
    + unfold exists_at, _exists, bind, get_state, ret. cbn [storage]. fold path.
      unfold exists_. rewrite Hstat, lookup_delete_eq. reflexivity.
    + unfold get_metadata, _get_hexdigest, _load_stream, bind, get_state.
      cbn [storage]. fold path. unfold open_rb. rewrite Hstat, lookup_delete_eq.
      eexists. reflexivity.
    + unfold delete_at, _delete, exists_at, _exists, bind, get_state, ret.
      cbn [storage]. fold path. unfold exists_. rewrite Hstat, lookup_delete_eq.
      eexists. reflexivity.
Qed.

Lemma file_store_exists_delete_witness :
  let w := fresh_runtime (FileStorage (Path "/data") ∅) in
  let w1 := state_after (store "results/a.txt" (encode_ascii "x") w) in
  exists_at "results/a.txt" w1 = Return true w1 /\
  exists w2,
    delete_at "results/a.txt" w1 = Return tt w2 /\
    exists_at "results/a.txt" w2 = Return false w2 /\
    (exists msg, get_metadata "results/a.txt" w2
                 = Raise (MissingExternalResourceError msg) w2) /\
    (exists msg, delete_at "results/a.txt" w2
                 = Raise (MissingExternalResourceError msg) w2).
Proof.
  apply (file_store_exists_delete (Path "/data") ∅ false [] "results/a.txt"
           (encode_ascii "x") "/data/results/a.txt"
           (hashlib.md5_hexdigest (encode_ascii "x"))).
  vm_compute. reflexivity.
Defined.

(** X6. [get_filename] with the metadata of the current content returns,
    with no warning and no change of state: on the file backend the text
    of the path under the root, on the in-memory backend [None] (its
    [_get_filename] has no body). *)
Theorem get_filename_of_valid_content (w : runtime) location content :
  _load_stream location w = Return content w ->
  get_filename location (hashlib.md5_hexdigest content) w
  = Return match storage w with
           | FileStorage root_dir _ => Some (str (_as_path root_dir location))
           | MemoryStorage _ => None
           end w.
Proof.
  intros Hread. unfold get_filename, bind. rewrite (validate_match _ _ _ Hread).
  unfold _get_filename, bind, get_state, ret. destruct (storage w); reflexivity.
Qed.

Lemma get_filename_of_valid_content_witness :
  let w := fresh_runtime (MemoryStorage {[ "a" := encode_ascii "x" ]}) in
  get_filename "a" (hashlib.md5_hexdigest (encode_ascii "x")) w = Return None w.
Proof.
  apply (get_filename_of_valid_content
           (fresh_runtime (MemoryStorage {[ "a" := encode_ascii "x" ]}))
           "a" (encode_ascii "x")).
  vm_compute. reflexivity.
Defined.

(** X7. On the file backend, at a location where the disk holds nothing,
    [exists] returns [False] and [get_metadata], [load_stream],
    [get_filename] and [delete] all raise [MissingExternalResourceError],
    whatever the expected metadata and whether [allow_changed] is on or
    off; none of them changes the state. *)
Theorem file_operations_on_missing_location root_dir disk flag ws location metadata :
  stat disk (_as_path root_dir location) = None ->
  let w := {| storage := FileStorage root_dir disk; allow_changed := flag;
              warned := ws |} in
  exists_at location w = Return false w /\
  (exists msg, get_metadata location w = Raise (MissingExternalResourceError msg) w) /\
  (exists msg, load_stream location metadata w
               = Raise (MissingExternalResourceError msg) w) /\
  (exists msg, get_filename location metadata w
               = Raise (MissingExternalResourceError msg) w) /\
  (exists msg, delete_at location w = Raise (MissingExternalResourceError msg) w).
Proof.
  intros Hnone w.
  unfold get_filename, load_stream, validate, get_metadata, _get_hexdigest,
    _load_stream, delete_at, _delete, exists_at, _exists, open_rb, exists_.
  run. rewrite Hnone. repeat split; try eexists; reflexivity.
Qed.

Lemma file_operations_on_missing_location_witness :
  let w := {| storage := FileStorage (Path "/data") ∅; allow_changed := true;
              warned := [] |} in
  exists_at "a" w = Return false w /\
  (exists msg, get_metadata "a" w = Raise (MissingExternalResourceError msg) w) /\
  (exists msg, load_stream "a" "00" w = Raise (MissingExternalResourceError msg) w) /\
  (exists msg, get_filename "a" "00" w = Raise (MissingExternalResourceError msg) w) /\
  (exists msg, delete_at "a" w = Raise (MissingExternalResourceError msg) w).
Proof.
  apply (file_operations_on_missing_location (Path "/data") ∅ true [] "a" "00").
  vm_compute. reflexivity.
Defined.

(** X8. A location that is an absolute path is not kept under the root
    directory: [_as_path] gives the location's own path, so for every root
    [get_filename] names, and [store] writes, the file at that absolute
    path. *)
Theorem absolute_location_ignores_root root_dir disk flag ws location (P : bytes) :
  anchor (Path location) <> "" ->
  let w := {| storage := FileStorage root_dir disk; allow_changed := flag;
              warned := ws |} in
  _as_path root_dir location = Path location /\
  _get_filename location w = Return (Some (str (Path location))) w /\
  forall loc md w1,
    store location P w = Return (loc, md) w1 ->
    loc = str (Path location) /\
    exists disk', storage w1 = FileStorage root_dir disk' /\
                  disk' !! str (Path location) = Some (RegularFile P).
Proof.
  intros Hanchor w.
  assert (Hpath : _as_path root_dir location = Path location)
    by (apply truediv_anchored, Hanchor).
  split; [exact Hpath|]. split.
  - unfold _get_filename, bind, get_state, ret. cbn [storage w]. rewrite Hpath.
    reflexivity.
  - intros loc md w1 Hstore.
    destruct (file_store_returned _ _ _ _ _ _ _ _ _ Hstore)
      as (disk1 & _ & _ & _ & -> & ->).
    rewrite Hpath. split; [reflexivity|]. eexists. split; [reflexivity|].
    apply lookup_insert_eq.
Qed.

Lemma absolute_location_ignores_root_witness :
  let w := fresh_runtime (FileStorage (Path "/data") ∅) in
  _as_path (Path "/data") "/etc/x" = Path "/etc/x" /\
  _get_filename "/etc/x" w = Return (Some "/etc/x") w /\
  forall loc md w1,
    store "/etc/x" (encode_ascii "x") w = Return (loc, md) w1 ->
    loc = "/etc/x" /\
    exists disk', storage w1 = FileStorage (Path "/data") disk' /\
                  disk' !! "/etc/x" = Some (RegularFile (encode_ascii "x")).
Proof.
  apply (absolute_location_ignores_root (Path "/data") ∅ false [] "/etc/x"
           (encode_ascii "x")).
  vm_compute. discriminate.
Defined.

Lemma str_of_parts p : parts p <> [] -> str p = anchor p +:+ join "/" (parts p).
Proof.
  unfold str. destruct (anchor p), (parts p); try reflexivity. contradiction.
Qed.

Lemma join_longer (l : list string) x m :
  l <> [] ->
  (String.length (join "/" l) < String.length (join "/" (l ++ x :: m)))%nat.
Proof.
  intros Hl. rewrite join_app by (assumption || discriminate).
  rewrite !string_length_app. simpl. lia.
Qed.

Lemma ancestor_is_not_the_path p d :
  d ∈ ancestors (parent p) -> parts d <> [] -> str d <> str p.
Proof.
  unfold ancestors. intros Hd Hparts Heq.
  apply list_elem_of_In, in_map_iff in Hd as (k & <- & Hk).
  apply in_seq in Hk. simpl in *.
  set (rl := removelast (parts p)) in *.
  assert (Hp : parts p <> []).
  { intros Hnil. subst rl. rewrite Hnil in *. simpl in *. lia. }
  pose proof (app_removelast_last "" Hp) as Hsplit. fold rl in Hsplit.
  assert (Hparts_p : parts p
                     = take k rl ++ (drop k rl ++ [List.last (parts p) ""])).
  { rewrite app_assoc, take_drop. exact Hsplit. }
  assert (Hlen : (String.length (join "/" (take k rl))
                  < String.length (join "/" (parts p)))%nat).
  { rewrite Hparts_p at 1.
    destruct (drop k rl ++ [List.last (parts p) ""]) as [|x m] eqn:Hrest.
    - destruct (drop k rl); discriminate.
    - apply join_longer, Hparts. }
  rewrite (str_of_parts p Hp) in Heq.
  rewrite (str_of_parts {| anchor := anchor p; parts := take k rl |} Hparts) in Heq.
  simpl in Heq. apply (f_equal String.length) in Heq.
  rewrite !string_length_app in Heq. lia.
Qed.

(** X9. [FileStorage._store] makes the directories it needs: once [store]
    has returned, every ancestor directory of the file's path, from the
    outermost one down to its parent, is a directory on the disk, and the
    file holds the payload. *)
Theorem file_store_makes_parent_directories root_dir disk flag ws location
    (P : bytes) loc md w1 :
  store location P
    {| storage := FileStorage root_dir disk; allow_changed := flag; warned := ws |}
  = Return (loc, md) w1 ->
  exists disk',
    disk_of w1 = Some disk' /\
    stat disk' (_as_path root_dir location) = Some (RegularFile P) /\
    forall d, d ∈ ancestors (parent (_as_path root_dir location)) ->
              stat disk' d = Some Directory.
Proof.
  intros Hstore.
  destruct (file_store_returned _ _ _ _ _ _ _ _ _ Hstore)
    as (disk1 & Hmk & Hparts & _ & _ & ->).
  eexists. split; [reflexivity|]. split.
  - rewrite (stat_of_components _ _ Hparts). apply lookup_insert_eq.
  - intros d Hd.
    pose proof (proj2 (mkdir_chain_post _ _ _ Hmk) d Hd) as Hdir.
    unfold stat in *. destruct (parts d) eqn:Hpd; [reflexivity|].
    rewrite lookup_insert_ne; [exact Hdir|].
    intros Heq. symmetry in Heq. revert Heq.
    apply ancestor_is_not_the_path; [exact Hd|]. rewrite Hpd. discriminate.
Qed.

Lemma file_store_makes_parent_directories_witness :
  let w1 := state_after (store "a/b/c.txt" (encode_ascii "x")
                           (fresh_runtime (FileStorage (Path "/data") ∅))) in
  exists disk',
    disk_of w1 = Some disk' /\
    stat disk' (_as_path (Path "/data") "a/b/c.txt")
    = Some (RegularFile (encode_ascii "x")) /\
    forall d, d ∈ ancestors (parent (_as_path (Path "/data") "a/b/c.txt")) ->
              stat disk' d = Some Directory.
Proof.
  apply (file_store_makes_parent_directories (Path "/data") ∅ false []
           "a/b/c.txt" (encode_ascii "x") "/data/a/b/c.txt"
           (hashlib.md5_hexdigest (encode_ascii "x"))).
  vm_compute. reflexivity.
Defined.

Lemma file_round_trip_absolute_root_witness :
  let w1 := state_after (store "a/b/c.txt" (encode_ascii "x")
                           (fresh_runtime (FileStorage (Path "/data") ∅))) in
  load_stream "/data/a/b/c.txt" (hashlib.md5_hexdigest (encode_ascii "x")) w1
  = Return (encode_ascii "x") w1.
Proof.
  apply (file_round_trip_absolute_root (Path "/data") ∅ false [] "a/b/c.txt"
           (encode_ascii "x")).
  - apply Path_wf.
  - vm_compute. discriminate.
  - vm_compute. reflexivity.
Defined.

(** * Further properties of the result client *)

(** X11. [__eq__] on containers compares class and path only. It is an
    equivalence; two nodes of the same class and path are equal whatever
    their identity, their parent instance or the object they were made
    for; nodes of different classes are never equal; and any two
    [ResultClient] instances are equal, since the path of every
    [ResultClient] is the same literal. *)
Theorem container_equality_is_class_and_path :
  (forall a, __eq__ a a = true) /\
  (forall a b, __eq__ a b = __eq__ b a) /\
  (forall a b c, __eq__ a b = true -> __eq__ b c = true -> __eq__ a c = true) /\
  (forall a b, __eq__ a b = true <->
               isinstance_of_class b a = true /\ path a = path b) /\
  (forall id1 pc1 id2 pc2,
      __eq__ (ResultClient id1 pc1) (ResultClient id2 pc2) = true) /\
  (forall id1 id2 p1 p2 pc x1 x2,
      path p1 = path p2 ->
      __eq__ (CloneResult id1 p1 pc x1) (CloneResult id2 p2 pc x2) = true) /\
  (forall id1 id2 p pc x,
      __eq__ (CloneResult id1 p pc x) (ExtensionResult id2 p pc x) = false).
Proof.
  assert (Hiff : forall a b, __eq__ a b = true <->
                   isinstance_of_class b a = true /\ path a = path b).
  { intros a b. unfold __eq__. rewrite andb_true_iff, String.eqb_eq. tauto. }
  assert (Hsym : forall a b, isinstance_of_class a b = isinstance_of_class b a)
    by (intros [] []; reflexivity).
  split; [|split; [|split; [|split; [exact Hiff|split; [|split]]]]].
  - intros a. apply Hiff. split; [destruct a|]; reflexivity.
  - intros a b. unfold __eq__. rewrite Hsym, String.eqb_sym. reflexivity.
  - intros a b c Hab Hbc. apply Hiff in Hab as [Cab Pab], Hbc as [Cbc Pbc].
    apply Hiff. split; [|congruence].
    destruct a, b; try discriminate; destruct c; try discriminate; reflexivity.
  - reflexivity.
  - intros id1 id2 p1 p2 pc x1 x2 Hp. apply Hiff. split; [reflexivity|].
    simpl. rewrite Hp. reflexivity.
  - reflexivity.
Qed.

Section FurtherHierarchy.
Context {S Json Registry Decoded : Type}.
Context `{!Interpreter, !ResultServer S, !Tokenization Json Registry Decoded}.

Local Abbreviation world := (world S Registry).

Implicit Types (w : world) (self node : container) (item : pyobj).

Lemma path_of_parent_is_prefix node :
String.prefix (path (parent_of node)) (path node) = true.
Proof.
destruct node; simpl; try apply prefix_app.
reflexivity.
Qed.

Lemma iter_inclusion (a b : container) w loc :
String.prefix (path a) (path b) = true ->
loc ∈ __iter__ b w -> loc ∈ __iter__ a w.
Proof.
unfold __iter__, startswith. intros Hab Hloc.
apply list_elem_of_In, filter_In in Hloc as [Hin Hpre].
apply list_elem_of_In, filter_In. split; [exact Hin|].
exact (prefix_trans _ _ _ Hab Hpre).
Qed.

(** X12. Iterating a node yields known locations only, and everything a
  node yields its parent yields too. The filter is a plain string
  prefix, so more generally a node yields what any node yields whose
  path starts with its own path, such as a sibling whose segment extends
  its own. *)
Theorem iteration_is_by_path_prefix :
(forall node w loc, loc ∈ __iter__ node w -> loc ∈ rs_iter (result_server w)) /\
(forall node w loc, loc ∈ __iter__ node w -> loc ∈ __iter__ (parent_of node) w) /\
(forall (a b : container) w loc,
    String.prefix (path a) (path b) = true ->
    loc ∈ __iter__ b w -> loc ∈ __iter__ a w).
Proof.
split; [|split].
- intros node w loc Hloc. unfold __iter__ in Hloc.
  apply list_elem_of_In, filter_In in Hloc as [Hin _]. apply list_elem_of_In, Hin.
- intros node w loc. apply iter_inclusion, path_of_parent_is_prefix.
- intros a b w loc. apply iter_inclusion.
Qed.

End FurtherHierarchy.

(** ** Storage keys *)

Lemma has_char_app c a b :
  has_char c (a +:+ b) = has_char c a || has_char c b.
Proof.
  induction a as [|x a IH]; app_cons; simpl; [reflexivity|].
  rewrite IH. apply orb_assoc.
Qed.

Lemma split_on_two sep a b :
  has_char sep a = false -> has_char sep b = false ->
  split_on sep (a +:+ String sep b) = [a; b].
Proof.
  intros Ha Hb. rewrite (split_on_app_sep _ _ _ Ha), (split_on_no_sep _ _ Hb).
  reflexivity.
Qed.

Lemma storage_key_of_pieces prefix key cls token :
  split_on "-"%char key = [cls; token] ->
  _gufe_key_to_storage_key prefix key
  = inr (prefix +:+ "/" +:+ cls +:+ "/" +:+ token +:+ ".json").
Proof.
  intros Hsplit. unfold _gufe_key_to_storage_key. rewrite Hsplit. f_equal.
  rewrite join_app by (apply split_on_not_nil || discriminate).
  rewrite (join_split_on "/"%char prefix). reflexivity.
Qed.

(** X13. For a key made of a class name, one dash and a token, neither
    holding a dash, the storage key is the prefix, the class name and the
    token with the suffix [.json], joined by slashes: splitting the prefix
    at its slashes and joining it again changes nothing, whatever the
    prefix. *)
Theorem storage_key_layout prefix cls token :
  has_char "-" cls = false -> has_char "-" token = false ->
  _gufe_key_to_storage_key prefix (cls +:+ "-" +:+ token)
  = inr (prefix +:+ "/" +:+ cls +:+ "/" +:+ token +:+ ".json").
Proof.
  intros Hcls Htoken. apply storage_key_of_pieces.
  exact (split_on_two "-"%char cls token Hcls Htoken).
Qed.

Lemma storage_key_layout_witness :
  _gufe_key_to_storage_key "setup/v1" ("Transformation" +:+ "-" +:+ "0a1b")
  = inr ("setup/v1" +:+ "/" +:+ "Transformation" +:+ "/" +:+ "0a1b" +:+ ".json").
Proof.
  apply (storage_key_layout "setup/v1" "Transformation" "0a1b"); reflexivity.
Defined.

(** X14. [_gufe_key_to_storage_key] returns exactly for the keys that hold
    one dash; for a key with no dash or with more than one it raises
    [ValueError], whatever the prefix. *)
Theorem storage_key_needs_exactly_one_dash prefix key :
  ((exists storage_key, _gufe_key_to_storage_key prefix key = inr storage_key)
   <-> count_char "-" key = 1%nat) /\
  (forall e, _gufe_key_to_storage_key prefix key = inl e ->
             exists msg, e = ValueError msg).
Proof.
  pose proof (split_on_length "-"%char key) as Hlen.
  unfold _gufe_key_to_storage_key.
  destruct (split_on "-"%char key) as [|a [|b [|c l]]]; simpl in Hlen.
  - discriminate.
  - split; [split; [intros [s Hs]; discriminate|intros Hc; lia]|].
    intros e He. injection He as <-. eauto.
  - split; [split; [intros _; lia|intros _; eauto]|]. intros e He. discriminate.
  - split; [split; [intros [s Hs]; discriminate|intros Hc; lia]|].
    intros e He. injection He as <-. eauto.
Qed.

Lemma string_app_inv_tail a b c : a +:+ c = b +:+ c -> a = b.
Proof.
  revert b. induction a as [|x a IH]; intros [|y b] Heq; app_cons.
  - reflexivity.
  - exfalso. apply (f_equal String.length) in Heq.
    revert Heq. app_cons. simpl. rewrite string_length_app. lia.
  - exfalso. apply (f_equal String.length) in Heq.
    revert Heq. app_cons. simpl. rewrite string_length_app. lia.
  - revert Heq. app_cons. intros Heq. injection Heq as -> Heq.
    f_equal. exact (IH _ Heq).
Qed.

Lemma first_separator_unique sep a1 r1 a2 r2 :
  has_char sep a1 = false -> has_char sep a2 = false ->
  a1 +:+ String sep r1 = a2 +:+ String sep r2 -> a1 = a2 /\ r1 = r2.
Proof.
  revert a2. induction a1 as [|x a1 IH]; intros [|y a2] H1 H2; app_cons; intros Heq.
  - injection Heq as <-. auto.
  - injection Heq as <- _. simpl in H2. rewrite Ascii.eqb_refl in H2. discriminate.
  - injection Heq as -> _. simpl in H1. rewrite Ascii.eqb_refl in H1. discriminate.
  - injection Heq as -> Heq. simpl in H1, H2.
    apply orb_false_iff in H1 as [_ H1]. apply orb_false_iff in H2 as [_ H2].
    destruct (IH _ H1 H2 Heq) as [-> ->]. auto.
Qed.

Lemma storage_key_pieces prefix key storage_key :
  _gufe_key_to_storage_key prefix key = inr storage_key ->
  exists cls token,
    key = cls +:+ "-" +:+ token /\
    storage_key = prefix +:+ "/" +:+ cls +:+ "/" +:+ token +:+ ".json".
Proof.
  intros Hkey. pose proof (join_split_on "-"%char key) as Hjoin.
  destruct (split_on "-"%char key) as [|cls [|token [|c l]]] eqn:Hsplit;
    try (unfold _gufe_key_to_storage_key in Hkey; rewrite Hsplit in Hkey; discriminate).
  rewrite (storage_key_of_pieces _ _ _ _ Hsplit) in Hkey. injection Hkey as <-.
  exists cls, token. split; [symmetry; exact Hjoin|reflexivity].
Qed.

(** X15. Under one prefix, two keys that hold no slash never share a
    storage key. *)
Theorem storage_key_is_injective_without_slash prefix key1 key2 storage_key :
  has_char "/" key1 = false -> has_char "/" key2 = false ->
  _gufe_key_to_storage_key prefix key1 = inr storage_key ->
  _gufe_key_to_storage_key prefix key2 = inr storage_key ->
  key1 = key2.
Proof.
  intros Hs1 Hs2 H1 H2.
  destruct (storage_key_pieces _ _ _ H1) as (c1 & t1 & -> & Hk1).
  destruct (storage_key_pieces _ _ _ H2) as (c2 & t2 & -> & Hk2).
  rewrite has_char_app in Hs1, Hs2.
  apply orb_false_iff in Hs1 as [Hc1 _]. apply orb_false_iff in Hs2 as [Hc2 _].
  rewrite Hk1 in Hk2. apply (inj (String.append prefix)) in Hk2.
  change ("/" +:+ c1 +:+ "/" +:+ t1 +:+ ".json")
    with (String "/" (c1 +:+ String "/" (t1 +:+ ".json"))) in Hk2.
  change ("/" +:+ c2 +:+ "/" +:+ t2 +:+ ".json")
    with (String "/" (c2 +:+ String "/" (t2 +:+ ".json"))) in Hk2.
  injection Hk2 as Hk2.
  destruct (first_separator_unique _ _ _ _ _ Hc1 Hc2 Hk2) as [-> Ht].
  apply string_app_inv_tail in Ht as ->. reflexivity.
Qed.

Lemma storage_key_is_injective_without_slash_witness :
  "Clone-c1" = "Clone-c1".
Proof.
  apply (storage_key_is_injective_without_slash "setup" "Clone-c1" "Clone-c1"
           "setup/Clone/c1.json"); reflexivity.
Defined.

Example storage_keys_collide_with_slashes :
  _gufe_key_to_storage_key "setup" "a/b-c" = _gufe_key_to_storage_key "setup" "a-b/c".
Proof. reflexivity. Qed.

(** ** Key references found by the pattern *)






(** ** Further properties of loading an object graph *)

Section FurtherLoad.
Context {S Json Registry Decoded : Type}.
Context `{!Interpreter, !ResultServer S, !Tokenization Json Registry Decoded}.

Local Abbreviation world := (world S Registry).

Variable s0 : S.
Hypothesis read_keeps_server :
forall location, state_after (rs_load_stream location false s0) = s0.
Context `{!SetIteration}.

Implicit Types (w : world).

(** One turn of the loop over the references of a record. *)
Lemma loop_unfold depth prefix (k0 : string) (keys : list string) w :
for_each (fun key => recursive_build_object_cache depth prefix key;; ret tt)
         (k0 :: keys) w
= match recursive_build_object_cache depth prefix k0 w with
  | Return _ w1 =>
      for_each (fun key => recursive_build_object_cache depth prefix key;; ret tt)
               keys w1
  | Raise e w1 => Raise e w1
  end.
Proof.
cbn [for_each]. unfold bind at 1 2.
destruct (recursive_build_object_cache depth prefix k0 w); reflexivity.
Qed.

(** When the loop over the references of a record returns, the
  reconstruction of each of them returned. *)
Lemma loop_returns_each depth prefix (keys : list string) wa wb ub :
result_server wa = s0 ->
for_each (fun key => recursive_build_object_cache depth prefix key;; ret tt)
         keys wa = Return ub wb ->
forall key, key ∈ keys -> returns_at prefix s0 depth key.
Proof.
revert wa. induction keys as [|k0 keys IH]; intros wa Hsa Hfor key Hkey;
  [inversion Hkey|].
cbn [for_each] in Hfor. unfold bind at 1 2 in Hfor.
destruct (recursive_build_object_cache depth prefix k0 wa) as [v1 wc|] eqn:Hrec;
  [|discriminate].
unfold ret at 1 in Hfor.
apply elem_of_cons in Hkey as [->|Hkey].
- exists wa, v1, wc. auto.
- destruct (rebuild_returns_only_if_resolved s0 read_keeps_server
              _ _ _ _ _ _ Hsa Hrec) as [Hsc _].
  exact (IH _ Hsc Hfor key Hkey).
Qed.

Lemma returns_at_reference prefix depth key key' :
returns_at prefix s0 (Datatypes.S depth) key ->
references prefix s0 key key' ->
returns_at prefix s0 depth key'.
Proof.
intros (w & v & w' & Hw & Hrun) (text' & Htext & Hin).
rewrite rebuild_unfold in Hrun.
destruct (_gufe_key_to_storage_key prefix key) as [|storage_key] eqn:Hkey;
  [discriminate|].
destruct (container_load_stream storage_key false w) as [content w1|] eqn:Hload;
  [|discriminate].
destruct (container_load_stream_inv s0 read_keeps_server _ _ _ _ Hw Hload)
  as (Hs1 & s' & Hread).
destruct (decode_utf8 content) as [|text] eqn:Hdec; [discriminate|].
destruct (json_loads text) as [|dct] eqn:Hjson; [discriminate|].
destruct (for_each _ _ w1) as [u w2|] eqn:Hloop; [|discriminate].
rewrite (record_text_read _ _ _ _ _ _ _ Hkey Hread Hdec) in Htext.
injection Htext as <-.
apply (loop_returns_each _ _ _ _ _ _ Hs1 Hloop).
apply set_iteration_elem. exact Hin.
Qed.

Lemma returns_at_zero prefix key : ~ returns_at prefix s0 0 key.
Proof. intros (w & v & w' & _ & Hrun). discriminate. Qed.

Lemma returns_at_reachable prefix key key' :
rtc (references prefix s0) key key' ->
forall depth, returns_at prefix s0 depth key ->
exists depth', (depth' <= depth)%nat /\ returns_at prefix s0 depth' key'.
Proof.
induction 1 as [k|k k1 k2 Hstep Hrest IH]; intros depth Hret; [eauto|].
destruct depth as [|depth]; [destruct (returns_at_zero _ _ Hret)|].
destruct (IH depth (returns_at_reference _ _ _ _ Hret Hstep)) as (d' & Hle & Hd').
exists d'. split; [lia|exact Hd'].
Qed.

Lemma returns_at_cycle prefix key :
tc (references prefix s0) key key ->
forall depth, ~ returns_at prefix s0 depth key.
Proof.
intros Hcycle.
assert (Hstep : exists k1, references prefix s0 key k1 /\
                           rtc (references prefix s0) k1 key).
{ inversion Hcycle as [? ? Hr|? k1 ? Hr Hrest]; subst.
  - exists key. split; [exact Hr|apply rtc_refl].
  - exists k1. split; [exact Hr|apply tc_rtc, Hrest]. }
destruct Hstep as (k1 & Hr & Hback).
intros depth. induction depth as [depth IH] using lt_wf_ind. intros Hret.
destruct depth as [|depth]; [exact (returns_at_zero _ _ Hret)|].
pose proof (returns_at_reference _ _ _ _ Hret Hr) as Hk1.
destruct (returns_at_reachable _ _ _ Hback _ Hk1) as (d' & Hle & Hd').
apply (IH d'); [lia|exact Hd'].
Qed.

(** X17. A cycle among the key references never yields an object: if a
  key from which a chain of references leads back to itself is
  referenced from the root, directly or through other records, then
  [_load_gufe_tokenizable] raises, whatever the recursion limit. *)
Theorem load_of_cyclic_references_raises prefix (root key : string) w :
result_server w = s0 ->
reachable prefix s0 root key ->
tc (references prefix s0) key key ->
returned (_load_gufe_tokenizable prefix root w) = None /\
exists e w', _load_gufe_tokenizable prefix root w = Raise e w'.
Proof.
intros Hw Hreach Hcycle. unfold _load_gufe_tokenizable.
destruct (recursive_build_object_cache recursion_limit prefix root w)
  as [v w'|e w'] eqn:Hrun; [exfalso|split; [reflexivity|eauto]].
assert (Hroot : returns_at prefix s0 recursion_limit root) by (exists w, v, w'; auto).
destruct (returns_at_reachable _ _ _ Hreach _ Hroot) as (d' & _ & Hd').
exact (returns_at_cycle _ _ Hcycle _ Hd').
Qed.

(** The inner function touches nothing but the registry: the result
  server, the caches, the allocation counter and the record of writes
  are as before, whether it returns or raises. *)
Lemma rebuild_frame depth prefix :
forall root w,
  result_server w = s0 ->
  let w' := state_after (recursive_build_object_cache depth prefix root w) in
  result_server w' = s0 /\ caches w' = caches w /\
  next_id w' = next_id w /\ store_calls w' = store_calls w.
Proof.
induction depth as [|depth IH]; intros root w Hw; cbv zeta; [simpl; auto|].
rewrite rebuild_unfold.
destruct (_gufe_key_to_storage_key prefix root) as [|storage_key];
  [simpl; auto|].
assert (Hload : let w1 := state_after (container_load_stream storage_key false w) in
                result_server w1 = s0 /\ caches w1 = caches w /\
                next_id w1 = next_id w /\ store_calls w1 = store_calls w).
{ cbv zeta. split; [exact (load_stream_server s0 read_keeps_server _ _ Hw)|].
  unfold container_load_stream, on_server.
  destruct (rs_load_stream storage_key false (result_server w)); simpl; auto. }
cbv zeta in Hload.
destruct (container_load_stream storage_key false w) as [content w1|e w1];
  simpl in Hload; [|exact Hload].
destruct Hload as (Hs1 & Hc1 & Hn1 & Hl1).
destruct (decode_utf8 content) as [|text]; [simpl; auto|].
destruct (json_loads text) as [|dct]; [simpl; auto|].
assert (Hloop : forall keys wa,
           result_server wa = s0 ->
           let wb := state_after
                       (for_each (fun key =>
                                    recursive_build_object_cache depth prefix key;;
                                    ret tt) keys wa) in
           result_server wb = s0 /\ caches wb = caches wa /\
           next_id wb = next_id wa /\ store_calls wb = store_calls wa).
{ induction keys as [|k0 keys IHk]; intros wa Hsa; cbv zeta; [simpl; auto|].
  rewrite loop_unfold.
  pose proof (IH k0 wa Hsa) as Hk0. cbv zeta in Hk0.
  destruct (recursive_build_object_cache depth prefix k0 wa) as [v1 wc|e1 wc];
    simpl in Hk0; [|exact Hk0].
  destruct Hk0 as (Hsc & Hcc & Hnc & Hlc).
  destruct (IHk wc Hsc) as (Hsb & Hcb & Hnb & Hlb).
  repeat split; congruence. }
pose proof (Hloop (set_iteration (regex.findall text)) w1 Hs1) as Hl. cbv zeta in Hl.
destruct (for_each _ _ w1) as [u w2|e w2]; simpl in Hl.
- destruct Hl as (Hs2 & Hc2 & Hn2 & Hl2).
  unfold on_registry. destruct (key_decode_dependencies dct (registry w2));
    simpl; repeat split; congruence.
- destruct Hl as (Hs2 & Hc2 & Hn2 & Hl2). simpl. repeat split; congruence.
Qed.

(** X18. Loading only reads the store: after [_load_gufe_tokenizable],
  whether it returned or raised, the result server is as it was, no
  call of [store_bytes] was made, and no container was created or
  cached. Only the registry of decoded objects can have changed. *)
Theorem load_writes_nothing prefix (root : string) w :
result_server w = s0 ->
let w' := state_after (_load_gufe_tokenizable prefix root w) in
result_server w' = s0 /\ store_calls w' = store_calls w /\
caches w' = caches w /\ next_id w' = next_id w.
Proof.
intros Hw. cbv zeta.
destruct (rebuild_frame recursion_limit prefix root w Hw) as (H1 & H2 & H3 & H4).
unfold _load_gufe_tokenizable. auto.
Qed.

End FurtherLoad.
(** ** Children of a node and the keys they are cached under *)

Section FurtherChildren.
Context {S Json Registry Decoded : Type}.
Context `{!Interpreter, !ResultServer S, !Tokenization Json Registry Decoded}.

Local Abbreviation world := (world S Registry).

Implicit Types (w : world) (self node : container) (item : pyobj).

(** On a miss, the node returned is the one [_load_next_level] builds. *)
Lemma getitem_miss_child self item w :
is_extension self = false ->
in_result_server item (result_server w) = false ->
cache_of self w !! _to_path_component self item = None ->
__getitem__ self item w
= Return (Child (new_child self item (next_id w)))
    (world_after_miss self (_to_path_component self item)
       (new_child self item (next_id w)) w).
Proof.
intros Hext Hin Hmiss.
destruct self; try discriminate;
  (apply base_getitem_miss; [assumption..|reflexivity]).
Qed.

Lemma cache_after_miss self h n w k :
allocated self w -> k <> h ->
cache_of self (world_after_miss self h n w) !! k = cache_of self w !! k.
Proof.
intros Halloc Hk. unfold cache_of, world_after_miss, allocated in *.
cbn [caches]. rewrite lookup_insert_eq. cbn [default from_option].
rewrite lookup_insert_ne by lia. cbv [default from_option id].
rewrite lookup_insert_ne by congruence. reflexivity.
Qed.

(** X19. The memo of a node is keyed by the normalized item, not by the
  item: once an item has made a child, every other item with the same
  path component gets that same instance, which still holds the first
  item as the object it was made for. *)
Theorem child_is_shared_by_items_of_one_key self item1 item2 w :
is_extension self = false ->
in_result_server item1 (result_server w) = false ->
in_result_server item2 (result_server w) = false ->
cache_of self w !! _to_path_component self item1 = None ->
_to_path_component self item2 = _to_path_component self item1 ->
let n := new_child self item1 (next_id w) in
exists w1,
  __getitem__ self item1 w = Return (Child n) w1 /\
  __getitem__ self item2 w1 = Return (Child n) w1 /\
  made_for n = Some item1.
Proof.
intros Hext Hin1 Hin2 Hmiss Hkey n.
pose proof (getitem_miss_child _ _ _ Hext Hin1 Hmiss) as Hrun. fold n in Hrun.
eexists. split; [exact Hrun|].
destruct (getitem_child_inv _ _ _ _ _ Hrun) as (_ & _ & Hsrv & Hc & _).
split.
- apply getitem_hit; [exact Hext|rewrite Hsrv; exact Hin2|].
  rewrite Hkey. exact Hc.
- subst n. destruct self; try discriminate; reflexivity.
Qed.

(** X20. A [TransformationResult] caches a child under the key its own
  [_to_path_component] gives, the text of the item's hash, while the
  [CloneResult] it builds takes its path segment from [str(item)]. So an
  item that is not a string and the string [str(item)], when the two
  keys differ, give two instances with one path: different objects that
  compare equal. *)
Theorem transformation_keeps_two_nodes_of_one_path id parent pc t (x : pyobj) w :
let self := TransformationResult id parent pc t in
(forall s, x <> PyStr s) ->
pretty (hash x) <> py_str x ->
rs_contains (result_server w) (py_str x) = false ->
cache_of self w !! pretty (hash x) = None ->
cache_of self w !! py_str x = None ->
allocated self w ->
exists n1 n2 w1 w2,
  __getitem__ self x w = Return (Child n1) w1 /\
  __getitem__ self (PyStr (py_str x)) w1 = Return (Child n2) w2 /\
  id_of n1 <> id_of n2 /\
  path n1 = path self +:+ "/" +:+ py_str x /\
  path n2 = path n1 /\
  __eq__ n1 n2 = true.
Proof.
intros self Hnot Hkeys Hsrv Hmiss1 Hmiss2 Halloc.
assert (Hkey1 : _to_path_component self x = pretty (hash x)).
{ destruct x; try reflexivity. destruct (Hnot s eq_refl). }
assert (Hin1 : in_result_server x (result_server w) = false).
{ destruct x; try reflexivity. destruct (Hnot s eq_refl). }
assert (Hrun1 := getitem_miss_child self x w eq_refl Hin1).
rewrite Hkey1 in Hrun1. specialize (Hrun1 Hmiss1).
set (n1 := new_child self x (next_id w)) in *.
set (w1 := world_after_miss self (pretty (hash x)) n1 w) in *.
assert (Hmiss2' : cache_of self w1 !! _to_path_component self (PyStr (py_str x))
                  = None).
{ unfold w1. rewrite cache_after_miss; [exact Hmiss2|exact Halloc|].
  simpl. congruence. }
assert (Hrun2 := getitem_miss_child self (PyStr (py_str x)) w1 eq_refl Hsrv Hmiss2').
eexists n1, _, w1, _. split; [exact Hrun1|]. split; [exact Hrun2|].
split; [simpl; lia|]. split; [reflexivity|]. split; [reflexivity|].
unfold __eq__. simpl. apply String.eqb_refl.
Qed.

End FurtherChildren.
(** ** The further properties on the sample worlds *)

Section FurtherSamples.
#[local] Existing Instance sample_process.
#[local] Existing Instance sample_tokenization.

Lemma load_of_cyclic_references_raises_witness :
returned (_load_gufe_tokenizable "setup" "Loop-aa" world_with_cycle) = None /\
exists e w',
  _load_gufe_tokenizable "setup" "Loop-aa" world_with_cycle = Raise e w'.
Proof.
apply (load_of_cyclic_references_raises
         (result_server world_with_cycle)
         (facade_reads_keep_server (result_server world_with_cycle) eq_refl)
         (H0 := remove_dups_is_set_iteration 0)
         "setup" "Loop-aa" "Loop-aa" world_with_cycle).
- reflexivity.
- apply rtc_refl.
- eapply tc_l; [|apply tc_once].
  + exists (key_reference "Loop-bb"). split; [vm_compute; reflexivity|].
    vm_compute. left.
  + exists (key_reference "Loop-aa"). split; [vm_compute; reflexivity|].
    vm_compute. left.
Defined.

Lemma load_writes_nothing_witness :
let w' := state_after (_load_gufe_tokenizable "setup" "Transformation-0a"
                         world_with_graph) in
result_server w' = result_server world_with_graph /\
store_calls w' = store_calls world_with_graph /\
caches w' = caches world_with_graph /\
next_id w' = next_id world_with_graph.
Proof.
apply (load_writes_nothing
         (result_server world_with_graph)
         (facade_reads_keep_server (result_server world_with_graph) eq_refl)
         "setup" "Transformation-0a" world_with_graph).
reflexivity.
Defined.

Lemma child_is_shared_by_items_of_one_key_witness :
let self := CloneResult 2 sample_transformation_node "0" (PyInt 0) in
let w := world_with_transformation_node in
let n := ExtensionResult 2 self "1" (PyInt 1) in
exists w1,
  __getitem__ self (PyInt 1) w = Return (Child n) w1 /\
  __getitem__ self (PyStr "1") w1 = Return (Child n) w1 /\
  made_for n = Some (PyInt 1).
Proof.
apply (child_is_shared_by_items_of_one_key
         (CloneResult 2 sample_transformation_node "0" (PyInt 0))
         (PyInt 1) (PyStr "1") world_with_transformation_node);
  vm_compute; reflexivity.
Defined.

Lemma transformation_keeps_two_nodes_of_one_path_witness :
exists n1 n2 w1 w2,
  __getitem__ sample_transformation_node PyNone world_with_transformation_node
  = Return (Child n1) w1 /\
  __getitem__ sample_transformation_node (PyStr "None") w1
  = Return (Child n2) w2 /\
  id_of n1 <> id_of n2 /\
  path n1 = "transformations/t1/None" /\
  path n2 = path n1 /\
  __eq__ n1 n2 = true.
Proof.
apply (transformation_keeps_two_nodes_of_one_path
         1%nat sample_root "t1" (PyStr "t1") PyNone
         world_with_transformation_node).
- discriminate.
- vm_compute. discriminate.
- vm_compute. reflexivity.
- vm_compute. reflexivity.
- vm_compute. reflexivity.
- vm_compute. lia.
Defined.

End FurtherSamples.
(** ** What storing an object graph writes *)

Section FurtherStore.
Context {S Registry : Type}.
Context `{!Interpreter, !ResultServer S}.
Context `{!SetIteration}.

Local Abbreviation world := (world S Registry).

Implicit Types (w : world) (o : tokenizable).

Lemma store_each_records prefix (objs : list tokenizable) w :
let w' := state_after (store_each prefix objs w) in
exists new : list (string * bytes),
  store_calls w' = store_calls w ++ new /\
  (forall key data, (key, data) ∈ new ->
     exists o, o ∈ objs /\
               _gufe_key_to_storage_key prefix (key_of o) = inr key /\
               data = encode_utf8 (keyed_json_of o)) /\
  caches w' = caches w /\ next_id w' = next_id w /\ registry w' = registry w.
Proof.
revert w. induction objs as [|o rest IH]; intros w; cbv zeta.
{ exists []. simpl. rewrite app_nil_r. repeat split; try reflexivity.
  intros key data Hin. inversion Hin. }
rewrite store_each_cons.
destruct (store_if_unknown_cases (Registry := Registry) prefix o w)
  as [(e & Hkey & ->)|[(key & Hkey & Hknown & ->)|(key & Hkey & Hnew & ->)]].
- exists []. simpl. rewrite app_nil_r. repeat split; try reflexivity.
  intros key data Hin. inversion Hin.
- destruct (IH w) as (new & Hlog & Hrec & Hframe). exists new.
  split; [exact Hlog|]. split; [|exact Hframe].
  intros k d Hin. destruct (Hrec k d Hin) as (x & Hx & Hxk).
  exists x. split; [right; exact Hx|exact Hxk].
- set (data := encode_utf8 (keyed_json_of o)).
  unfold on_server, logged.
  cbn [result_server caches next_id registry store_calls].
  destruct (rs_store_bytes key data (result_server w)) as [u s'|e s'].
  + cbv beta iota zeta.
    match goal with |- context [store_each prefix rest ?w1] => set (w1_ := w1) end.
    destruct (IH w1_) as (new & Hlog & Hrec & Hc & Hn & Hr).
    change (store_calls w1_) with (store_calls w ++ [(key, data)]) in Hlog.
    exists ((key, data) :: new).
    split; [rewrite Hlog, <- app_assoc; reflexivity|].
    split; [|split; [exact Hc|split; [exact Hn|exact Hr]]].
    intros k d Hin. apply elem_of_cons in Hin as [Heq|Hin].
    * injection Heq as -> ->. exists o. split; [left|]. split; [exact Hkey|reflexivity].
    * destruct (Hrec k d Hin) as (x & Hx & Hxk).
      exists x. split; [right; exact Hx|exact Hxk].
  + exists [(key, data)]. simpl. split; [reflexivity|].
    split; [|repeat split; reflexivity].
    intros k d Hin. apply list_elem_of_singleton in Hin. injection Hin as -> ->.
    exists o. split; [left|]. split; [exact Hkey|reflexivity].
Qed.

(** X21. Every record [_store_gufe_tokenizable] hands to [store_bytes] is
  the UTF-8 text of the keyed JSON of an object of the graph, under the
  storage key made from that object's key; whatever the result server
  does with it. Storing creates no container, changes no cache and
  leaves the registry of decoded objects alone, also when it stops on an
  exception. *)
Theorem store_writes_keyed_json_of_graph_objects prefix (obj : tokenizable) w :
let w' := state_after (_store_gufe_tokenizable prefix obj w) in
exists new : list (string * bytes),
  store_calls w' = store_calls w ++ new /\
  (forall key data, (key, data) ∈ new ->
     exists o, o ∈ get_all_gufe_objs obj /\
               _gufe_key_to_storage_key prefix (key_of o) = inr key /\
               data = encode_utf8 (keyed_json_of o)) /\
  caches w' = caches w /\ next_id w' = next_id w /\ registry w' = registry w.
Proof.
cbv zeta. unfold _store_gufe_tokenizable.
destruct (store_each_records prefix (set_iteration (get_all_gufe_objs obj)) w)
  as (new & Hlog & Hrec & Hframe).
exists new. split; [exact Hlog|]. split; [|exact Hframe].
intros key data Hin. destruct (Hrec key data Hin) as (o & Ho & Hk).
exists o. split; [apply set_iteration_elem in Ho; exact Ho|exact Hk].
Qed.

End FurtherStore.

Section FurtherStoreSample.
#[local] Existing Instance sample_process.
#[local] Existing Instance sample_tokenization.

Lemma store_writes_keyed_json_of_graph_objects_witness :
let w' := state_after (_store_gufe_tokenizable "setup" sample_T empty_world) in
exists new : list (string * bytes),
  store_calls w' = store_calls empty_world ++ new /\
  (forall key data, (key, data) ∈ new ->
     exists o, o ∈ get_all_gufe_objs sample_T /\
               _gufe_key_to_storage_key "setup" (key_of o) = inr key /\
               data = encode_utf8 (keyed_json_of o)) /\
  caches w' = caches empty_world /\ next_id w' = next_id empty_world /\
  registry w' = registry empty_world.
Proof.
apply (store_writes_keyed_json_of_graph_objects
         (H0 := remove_dups_is_set_iteration 0) "setup" sample_T empty_world).
Defined.

End FurtherStoreSample.
